(** * DataSource: lazy materialization, filter pushdown and in-memory fallback

    A shallow embedding of [mindsdb_native/libs/data_types/data_source.py].

    The Python object is a record of its attributes; methods are
    computations in a state-and-exception monad over that record.  The
    collaborators that live outside the file (the SQL parser and
    serializer, the operator registry, the type/subtype registry, the
    backend adapter [_setup] and the element-wise pandas operations) are
    section variables or fields of a type class, so every theorem holds
    for every behaviour of those collaborators.  A small concrete backend
    instantiates them for running the code.

    Modelled: [__init__], [_make_col_map], [set_subtypes], the [df] and
    [_col_map] getters, [drop_columns], [_filter_df], [filter], and of the
    delegation to the table [__len__], [__getitem__] on a column label
    and [__setitem__].  The setters, [_set_df], pickling and
    [__getattr__] are left out.  The adapter is a function of the query
    it is given.

    The definitions come first: the values, the table, the object and its
    methods, the demo backend, the properties.  The theorems follow. *)

From stdpp Require Import base option strings gmap pretty.
From Stdlib Require Import ZArith Lia Ascii String.
From stdpp Require Import list.

Local Open Scope string_scope.
Local Open Scope Z_scope.

(** ** Python values *)

(** Scalars that occur as table cells and as literals of a predicate.
    [SNull] stands for both [None] and [NaN]; floating-point cells are not
    modelled. *)
Inductive scalar :=
  | SNull
  | SInt (z : Z)
  | SStr (s : string).

Global Instance scalar_eq_dec : EqDecision scalar.
Proof. solve_decision. Defined.

(** The structured query of [moz_sql_parser] is JSON. *)
#[local] Set Warnings "-register-all".
Inductive json :=
  | JNull
  | JNum (z : Z)
  | JStr (s : string)
  | JList (l : list json)
  | JDict (kvs : list (string * json)).

Definition json_of_scalar (v : scalar) : json :=
  match v with
  | SNull => JNull
  | SInt z => JNum z
  | SStr s => JStr s
  end.

(** Exceptions the code raises itself, and the ones of its collaborators. *)
Inductive exn :=
  | InvalidSubtype (subtype : string)  (* ValueError('Invalid data subtype: ...') *)
  | UnpackError                        (* ValueError: wrong number of values to unpack *)
  | AssertionError
  | AttributeError
  | TypeError
  | KeyError (label : string)
  | IndexingError
  | NotImplementedError
  | ExternalError (msg : string).      (* raised by the parser, serializer or backend *)

Inductive res (A : Type) :=
  | Ok (a : A)
  | Raise (e : exn).
Arguments Ok {A} a.
Arguments Raise {A} e.

Definition res_bind {A B} (r : res A) (k : A -> res B) : res B :=
  match r with
  | Ok a => k a
  | Raise e => Raise e
  end.

(** ** Python string methods *)

Module PyStr.

Definition lower_ascii (c : ascii) : ascii :=
  let n := nat_of_ascii c in
  if ((65 <=? n)%nat && (n <=? 90)%nat)%bool then ascii_of_nat (n + 32) else c.

(** [s.lower()], on ASCII text. *)
Fixpoint lower (s : string) : string :=
  match s with
  | EmptyString => EmptyString
  | String c s' => String (lower_ascii c) (lower s')
  end.

Fixpoint lstrip (ch : ascii) (s : string) : string :=
  match s with
  | EmptyString => EmptyString
  | String c s' => if Ascii.eqb c ch then lstrip ch s' else s
  end.

Definition rstrip (ch : ascii) (s : string) : string :=
  String.rev (lstrip ch (String.rev s)).

(** [s.strip(ch)] for a one-character argument. *)
Definition strip (ch : ascii) (s : string) : string :=
  rstrip ch (lstrip ch s).

(** [s.replace(old, new)] for one-character [old] and [new]. *)
Fixpoint replace (old new : ascii) (s : string) : string :=
  match s with
  | EmptyString => EmptyString
  | String c s' =>
      String (if Ascii.eqb c old then new else c) (replace old new s')
  end.

(** [s.replace(old, "")] for a one-character [old]. *)
Fixpoint remove (old : ascii) (s : string) : string :=
  match s with
  | EmptyString => EmptyString
  | String c s' =>
      if Ascii.eqb c old then remove old s' else String c (remove old s')
  end.

(** [sub in s] on two strings. *)
Fixpoint contains (sub s : string) : bool :=
  String.prefix sub s ||
  match s with
  | EmptyString => false
  | String _ s' => contains sub s'
  end.

Definition percent : ascii := "%"%char.
Definition dquote : ascii := ascii_of_nat 34.
Definition squote : ascii := "'"%char.

(** [str(v)] *)
Definition str (v : scalar) : string :=
  match v with
  | SNull => "None"
  | SInt z => pretty z
  | SStr s => s
  end.

End PyStr.

(** ** Tables *)

(** A [pandas.DataFrame]: column labels and rows of cells, a row holding
    its cells in the order of the labels.  Labels are taken to be
    distinct (a label names its first column); a cell missing from a
    short row reads as null.  The row index is not modelled. *)
Record DataFrame := mkDF {
  columns : list string;
  rows : list (list scalar)
}.

Definition Series := list scalar.

Module DF.

Fixpoint index_of (col : string) (cols : list string) : option nat :=
  match cols with
  | [] => None
  | c :: cols' =>
      if String.eqb c col then Some 0%nat
      else option_map S (index_of col cols')
  end.

Definition cell_at (i : nat) (row : list scalar) : scalar :=
  nth i row SNull.

(** [df[col]] *)
Definition getitem (df : DataFrame) (col : string) : res Series :=
  match index_of col (columns df) with
  | Some i => Ok (map (cell_at i) (rows df))
  | None => Raise (KeyError col)
  end.

Definition notnull_cell (c : scalar) : bool :=
  match c with SNull => false | _ => true end.

(** [s.notnull()] *)
Definition notnull (s : Series) : list bool := map notnull_cell s.

Fixpoint select {A} (l : list A) (mask : list bool) : list A :=
  match l, mask with
  | x :: l', b :: mask' => if b then x :: select l' mask' else select l' mask'
  | _, _ => []
  end.

(** [df[mask]] for a boolean mask *)
Definition getmask (df : DataFrame) (mask : list bool) : res DataFrame :=
  if (length mask =? length (rows df))%nat
  then Ok (mkDF (columns df) (select (rows df) mask))
  else Raise IndexingError.

(** [m1 | m2] and [m1 & m2] on boolean masks *)
Definition mask_or (m1 m2 : list bool) : list bool :=
  zip_with orb m1 m2.
Definition mask_and (m1 m2 : list bool) : list bool :=
  zip_with andb m1 m2.

(** [df.head(n)]: the first [n] rows, or all but the last [-n] rows
    when [n] is negative. *)
Definition head (n : Z) (df : DataFrame) : DataFrame :=
  if 0 <=? n
  then mkDF (columns df) (take (Z.to_nat n) (rows df))
  else mkDF (columns df)
            (take (length (rows df) - Z.to_nat (- n)) (rows df)).

Fixpoint remove_at {A} (idxs : list nat) (i : nat) (l : list A) : list A :=
  match l with
  | [] => []
  | x :: l' =>
      if bool_decide (i ∈ idxs) then remove_at idxs (S i) l'
      else x :: remove_at idxs (S i) l'
  end.

Fixpoint first_missing (labels cols : list string) : option string :=
  match labels with
  | [] => None
  | l :: labels' =>
      match index_of l cols with
      | Some _ => first_missing labels' cols
      | None => Some l
      end
  end.

(** [df.drop(columns=labels)]: a label that is not a column raises
    [KeyError]; otherwise the labelled columns are removed from the
    labels and from every row. *)
Definition drop (labels : list string) (df : DataFrame) : res DataFrame :=
  match first_missing labels (columns df) with
  | Some l => Raise (KeyError l)
  | None =>
      let idxs := omap (fun l => index_of l (columns df)) labels in
      Ok (mkDF (remove_at idxs 0 (columns df))
               (map (remove_at idxs 0) (rows df)))
  end.

End DF.

(** The element-wise operations of pandas that [_filter_df] applies to a
    column.  Each yields a boolean mask or raises. *)
Class Pandas := {
  (** [pd.to_numeric(s, errors='coerce') > val] *)
  to_numeric_gt : Series -> scalar -> res (list bool);
  (** [pd.to_numeric(s, errors='coerce') < val] *)
  to_numeric_lt : Series -> scalar -> res (list bool);
  (** [s.str.contains(pat)] *)
  str_contains : Series -> string -> res (list bool);
  (** [s == val] *)
  series_eq : Series -> scalar -> res (list bool);
  (** [s != val] *)
  series_ne : Series -> scalar -> res (list bool)
}.

(** ** The object and its monad *)

(** A predicate [(col, op, value)] of a [where] list. *)
Definition condition : Type := string * string * scalar.

(** What [_internal_col_map] can hold: the dict handed over by the
    adapter, or a column label when [_col_map] unpacked a table (see
    [unpack_col_map]). *)
Inductive col_map_val :=
  | ColMap (m : gmap string string)
  | ColLabel (s : string).

Inductive warning :=
  | ColumnNotPresent (col subtype : string)
  | OperatorNotFound (op : string).

(** The attributes set by [__init__]; [log] collects what the module
    logger is asked to emit. *)
Record DataSource := mkDS {
  data_types : gmap string string;
  data_subtypes : gmap string string;
  _internal_df : option DataFrame;
  _internal_col_map : option col_map_val;
  is_sql : bool;
  query : option string;
  log : list warning
}.

(** [_cleanup], called last, does nothing in this class. *)
Definition __init__ (sql_query : option string) : DataSource :=
  {| data_types := ∅;
     data_subtypes := ∅;
     _internal_df := None;
     _internal_col_map := None;
     is_sql := bool_decide (sql_query ≠ None);
     query := sql_query;
     log := [] |}.

Definition py (A : Type) : Type := DataSource -> res A * DataSource.

Definition ret {A} (a : A) : py A := fun s => (Ok a, s).
Definition raise {A} (e : exn) : py A := fun s => (Raise e, s).
Definition bind {A B} (c : py A) (k : A -> py B) : py B :=
  fun s => match c s with
           | (Ok a, s') => k a s'
           | (Raise e, s') => (Raise e, s')
           end.
Definition lift {A} (r : res A) : py A := fun s => (r, s).
Definition get : py DataSource := fun s => (Ok s, s).
Definition modify (f : DataSource -> DataSource) : py unit :=
  fun s => (Ok tt, f s).

(** [try: body except Exception: handler] — the handler runs in the state
    the body left behind. *)
Definition try_except {A} (body handler : py A) : py A :=
  fun s => match body s with
           | (Ok a, s') => (Ok a, s')
           | (Raise _, s') => handler s'
           end.

Declare Scope py_scope.
Delimit Scope py_scope with py.
Notation "x <- c ;; k" := (bind c (fun x => k))
  (at level 100, c at next level, right associativity) : py_scope.
Notation "c ;;; k" := (bind c (fun _ => k))
  (at level 100, right associativity) : py_scope.
Local Open Scope py_scope.

Definition set_internal_df (v : option DataFrame) (s : DataSource) : DataSource :=
  mkDS (data_types s) (data_subtypes s) v (_internal_col_map s)
       (is_sql s) (query s) (log s).
Definition set_internal_col_map (v : option col_map_val) (s : DataSource) : DataSource :=
  mkDS (data_types s) (data_subtypes s) (_internal_df s) v
       (is_sql s) (query s) (log s).
Definition set_declared (ty st : gmap string string) (s : DataSource) : DataSource :=
  mkDS ty st (_internal_df s) (_internal_col_map s)
       (is_sql s) (query s) (log s).
Definition add_log (w : warning) (s : DataSource) : DataSource :=
  mkDS (data_types s) (data_subtypes s) (_internal_df s) (_internal_col_map s)
       (is_sql s) (query s) (log s ++ [w]).

Global Instance res_ret : MRet res := fun A a => Ok a.
Global Instance res_mbind : MBind res := fun A B k r => res_bind r k.

(** [for x in l: acc = f(acc, x)] in either monad *)
Fixpoint res_fold {A B} (f : A -> B -> res A) (l : list B) (a : A) : res A :=
  match l with
  | [] => Ok a
  | x :: l' => a' ← f a x; res_fold f l' a'
  end.

Fixpoint py_fold {A B} (f : A -> B -> py A) (l : list B) (a : A) : py A :=
  match l with
  | [] => ret a
  | x :: l' => a' <- f a x ;; py_fold f l' a'
  end.

Fixpoint py_for {B} (f : B -> py unit) (l : list B) : py unit :=
  match l with
  | [] => ret tt
  | x :: l' => f x ;;; py_for f l'
  end.

(** [len(j)] of a JSON value *)
Definition py_len (j : json) : res nat :=
  match j with
  | JDict kvs => Ok (length kvs)
  | JList l => Ok (length l)
  | JStr s => Ok (String.length s)
  | JNum _ | JNull => Raise TypeError
  end.

(** [col in cm] *)
Definition py_in (col : string) (cm : option col_map_val) : res bool :=
  match cm with
  | Some (ColMap m) => Ok (bool_decide (is_Some (m !! col)))
  | Some (ColLabel s) => Ok (PyStr.contains col s)
  | None => Raise TypeError
  end.

(** [cm[col]] *)
Definition py_getitem (cm : option col_map_val) (col : string) : res string :=
  match cm with
  | Some (ColMap m) =>
      match m !! col with
      | Some v => Ok v
      | None => Raise (KeyError col)
      end
  | Some (ColLabel _) | None => Raise TypeError
  end.

(** What [filter] returns: the table alone, or the table and the column
    map. *)
Inductive filter_result :=
  | Rows (d : DataFrame)
  | RowsAndMap (d : DataFrame) (m : gmap string string).

Definition result_rows (r : filter_result) : DataFrame :=
  match r with Rows d | RowsAndMap d _ => d end.

(** [_, cm = r]: a pair is taken apart; a table is iterated over its
    column labels, which succeeds only when there are exactly two. *)
Definition unpack_col_map (r : filter_result) : res col_map_val :=
  match r with
  | RowsAndMap _ m => Ok (ColMap m)
  | Rows d =>
      match columns d with
      | [_; b] => Ok (ColLabel b)
      | _ => Raise UnpackError
      end
  end.

(** What [__setitem__] is given: one value for every row, or a column of
    values. *)
Inductive item_value :=
  | ItemScalar (v : scalar)
  | ItemColumn (vs : Series).

(** *** [_make_col_map] *)
Definition _make_col_map (df : DataFrame) : DataFrame * gmap string string :=
  let col_map :=
    foldl (fun col_map col => <[col := col]> col_map) ∅ (columns df) in
  (df, col_map).

Section Methods.

Context {pd : Pandas}.

(** [moz_sql_parser.parse] and [moz_sql_parser.format] *)
Variable parse : string -> res (gmap string json).
Variable format : gmap string json -> res string.
(** [moz_sql_parser.keywords.binary_ops] *)
Variable binary_ops : gmap string string.
(** [mindsdb_native.libs.constants.mindsdb.DATA_TYPES_SUBTYPES], in
    iteration order *)
Variable DATA_TYPES_SUBTYPES : list (string * list string).
(** The adapter: [_setup()] and [_setup(query=q)] *)
Variable _setup : option string -> res (DataFrame * gmap string string).

(** *** [df] *)
Definition df : py DataFrame :=
  s <- get ;;
  match _internal_df s with
  | None =>
      r <- lift (_setup None) ;;
      modify (fun s => set_internal_col_map (Some (ColMap r.2))
                         (set_internal_df (Some r.1) s)) ;;;
      ret r.1
  | Some d => ret d
  end.

(** *** [_filter_df] *)
Definition _filter_df (raw_condition : condition) (df : DataFrame)
  : res DataFrame :=
  let '(col, cond, val) := raw_condition in
  let cond := PyStr.lower cond in
  s ← DF.getitem df col;
  df ← DF.getmask df (DF.notnull s);
  df ← (if String.eqb cond ">" then
          s ← DF.getitem df col;
          m ← to_numeric_gt s val;
          DF.getmask df m
        else Ok df);
  df ← (if String.eqb cond "<" then
          s ← DF.getitem df col;
          m ← to_numeric_lt s val;
          DF.getmask df m
        else Ok df);
  df ← (if String.eqb cond "like" then
          s ← DF.getitem df col;
          m ← str_contains s (PyStr.remove PyStr.percent (PyStr.str val));
          DF.getmask df m
        else Ok df);
  df ← (if String.eqb cond "=" then
          s1 ← DF.getitem df col;
          m1 ← series_eq s1 val;
          s2 ← DF.getitem df col;
          m2 ← series_eq s2 (SStr (PyStr.str val));
          DF.getmask df (DF.mask_or m1 m2)
        else Ok df);
  df ← (if String.eqb cond "!=" then
          s1 ← DF.getitem df col;
          m1 ← series_ne s1 val;
          s2 ← DF.getitem df col;
          m2 ← series_ne s2 (SStr (PyStr.str val));
          DF.getmask df (DF.mask_and m1 m2)
        else Ok df);
  Ok df.

(** *** [filter] *)

(** The single-condition clause [{op_json: [col, value]}] *)
Definition clause (op_json col : string) (value : scalar) : json :=
  JDict [(op_json, JList [JStr col; json_of_scalar value])].

(** [{'and': [where_clause, past_where_clause]}] *)
Definition and_clause (where_clause past_where_clause : json) : json :=
  JDict [("and", JList [where_clause; past_where_clause])].

(** One turn of the loop over [where] in the pushdown translator. *)
Definition where_step (parsed_query : gmap string json) (c : condition)
  : py (gmap string json) :=
  let '(col, op, value) := c in
  let past_where_clause := default (JDict []) (parsed_query !! "where") in
  let op := PyStr.lower op in
  op_json <- match binary_ops !! op with
             | Some j => ret j
             | None => modify (add_log (OperatorNotFound op)) ;;;
                       ret (PyStr.lower op)
             end ;;
  value <- (if String.eqb (PyStr.lower op) "like" then
              match value with
              | SStr v =>
                  ret (SStr ("%" ++ PyStr.strip PyStr.percent v ++ "%"))
              | _ => raise AttributeError
              end
            else ret value) ;;
  let where_clause := clause op_json col value in
  n <- lift (py_len past_where_clause) ;;
  let where_clause :=
    if (0 <? n)%nat then and_clause where_clause past_where_clause
    else where_clause in
  ret (<["where" := where_clause]> parsed_query).

(** The body of the [try]. *)
Definition pushdown (where_ : option (list condition)) (limit : option Z)
    (get_col_map : bool) : py filter_result :=
  s <- get ;;
  (if is_sql s then ret tt else raise AssertionError) ;;;
  parsed_query <- lift (match query s with
                        | Some q => parse q
                        | None => Raise TypeError
                        end) ;;
  parsed_query <- py_fold where_step (default [] where_) parsed_query ;;
  let parsed_query :=
    match limit with
    | Some l => <["limit" := JNum l]> parsed_query
    | None => parsed_query
    end in
  q <- lift (format parsed_query) ;;
  let q := PyStr.replace PyStr.dquote PyStr.squote q in
  r <- lift (_setup (Some q)) ;;
  if get_col_map then ret (RowsAndMap r.1 r.2) else ret (Rows r.1).

(** [if limit]: a limit that is neither [None] nor [0] *)
Definition truthy_limit (limit : option Z) : option Z :=
  match limit with
  | Some l => if l =? 0 then None else Some l
  | None => None
  end.

(** The body of the [except]. *)
Definition fallback (where_ : option (list condition)) (limit : option Z)
  : py filter_result :=
  d <- df ;;
  d <- lift (res_fold (fun df cond => _filter_df cond df)
                      (default [] where_) d) ;;
  match truthy_limit limit with
  | Some l => ret (Rows (DF.head l d))
  | None => ret (Rows d)
  end.

Definition filter (where_ : option (list condition)) (limit : option Z)
    (get_col_map : bool) : py filter_result :=
  try_except (pushdown where_ limit get_col_map) (fallback where_ limit).

(** *** [_col_map] *)
Definition _col_map : py (option col_map_val) :=
  s <- get ;;
  match _internal_col_map s with
  | None =>
      if is_sql s then
        r <- filter (Some []) (Some 1) true ;;
        cm <- lift (unpack_col_map r) ;;
        modify (set_internal_col_map (Some cm))
      else
        r <- lift (_setup None) ;;
        modify (fun s => set_internal_col_map (Some (ColMap r.2))
                           (set_internal_df (Some r.1) s))
  | Some _ => ret tt
  end ;;;
  s <- get ;;
  ret (_internal_col_map s).

(** *** [set_subtypes] *)

(** The [for ... else] over the registry: the first type whose
    subtypes contain [subtype]. *)
Definition type_of_subtype (subtype : string) : option string :=
  fst <$> List.find (fun ts => bool_decide (subtype ∈ ts.2))
                    DATA_TYPES_SUBTYPES.

(** One turn of the loop over [data_subtypes.items()]. *)
Definition set_subtype (p : string * string) : py unit :=
  let '(col, subtype) := p in
  cm <- _col_map ;;
  present <- lift (py_in col cm) ;;
  if negb present then
    modify (add_log (ColumnNotPresent col subtype))
  else
    match type_of_subtype subtype with
    | Some type_ =>
        modify (fun s => set_declared (<[col := type_]> (data_types s))
                                      (<[col := subtype]> (data_subtypes s)) s)
    | None => raise (InvalidSubtype subtype)
    end.

Definition set_subtypes (data_subtypes : list (string * string)) : py unit :=
  py_for set_subtype data_subtypes.

(** *** [drop_columns] *)
Definition resolve_column (columns_to_drop : list string) (col : string)
  : py (list string) :=
  cm <- _col_map ;;
  present <- lift (py_in col cm) ;;
  if negb present then ret (columns_to_drop ++ [col])%list
  else
    cm <- _col_map ;;
    v <- lift (py_getitem cm col) ;;
    ret (columns_to_drop ++ [v])%list.

Definition drop_columns (column_list : list string) : py unit :=
  columns_to_drop <- py_fold resolve_column column_list [] ;;
  s <- get ;;
  match _internal_df s with
  | None => raise AttributeError
  | Some d =>
      d' <- lift (DF.drop columns_to_drop d) ;;
      modify (set_internal_df (Some d'))
  end.

(** *** [__len__] *)
Definition __len__ : py nat :=
  d <- df ;;
  ret (length (rows d)).

(** *** [__getitem__], for a key that is a column label *)
Definition __getitem__ (key : string) : py Series :=
  d <- df ;;
  lift (DF.getitem d key).

(** *** [__setitem__]

    The assignment is pandas' own, [DataFrame.__setitem__], on the
    cached table: it yields the table as assigned or raises. *)
Variable pd_setitem : DataFrame -> string -> item_value -> res DataFrame.

Definition __setitem__ (key : string) (value : item_value) : py unit :=
  d <- df ;;
  d' <- lift (pd_setitem d key value) ;;
  modify (set_internal_df (Some d')).

End Methods.

(** ** A concrete backend for running the code

    Integer and string cells with the comparisons pandas makes on them; a
    parser and serializer that know one query; an adapter that serves one
    table. *)
Module Demo.

Fixpoint digits (s : string) (acc : Z) : option Z :=
  match s with
  | EmptyString => Some acc
  | String c s' =>
      match Ascii.is_nat c with
      | Some d => digits s' (10 * acc + Z.of_nat d)
      | None => None
      end
  end.

Definition int_of_string (s : string) : option Z :=
  match s with
  | EmptyString => None
  | String "-" (String _ _ as s') => Z.opp <$> digits s' 0
  | _ => digits s 0
  end.

(** [pd.to_numeric(c, errors='coerce')] on one cell; [None] is NaN. *)
Definition to_numeric (c : scalar) : option Z :=
  match c with
  | SNull => None
  | SInt z => Some z
  | SStr s => int_of_string s
  end.

Definition compare_numeric (cmp : Z -> Z -> bool) (s : Series) (val : scalar)
  : res (list bool) :=
  match val with
  | SInt v =>
      Ok (map (fun c => match to_numeric c with
                        | Some z => cmp z v
                        | None => false
                        end) s)
  | _ => Raise TypeError
  end.

Definition contains_cell (pat : string) (c : scalar) : res bool :=
  match c with
  | SStr s => Ok (PyStr.contains pat s)
  | _ => Raise AttributeError
  end.

Definition eq_cell (val c : scalar) : bool :=
  match c with
  | SNull => false
  | _ => bool_decide (c = val)
  end.

#[export] Instance pandas : Pandas := {|
  to_numeric_gt := compare_numeric Z.gtb;
  to_numeric_lt := compare_numeric Z.ltb;
  str_contains s pat := mapM (contains_cell pat) s;
  series_eq s val := Ok (map (eq_cell val) s);
  series_ne s val := Ok (map (fun c => negb (eq_cell val c)) s)
|}.

Definition the_query : string := "select * from t".

Definition parse (q : string) : res (gmap string json) :=
  if String.eqb q the_query
  then Ok (<["select" := JStr "*"]> (<["from" := JStr "t"]> ∅))
  else Raise (ExternalError "ParseException").

(** A parser that rejects every query. *)
Definition parse_fails (q : string) : res (gmap string json) :=
  Raise (ExternalError "ParseException").

Definition format (pq : gmap string json) : res string :=
  match pq !! "limit" with
  | Some (JNum l) => Ok ("SELECT * FROM t LIMIT " ++ pretty l)
  | Some _ => Raise (ExternalError "format")
  | None => Ok "SELECT * FROM t"
  end.

Definition binary_ops : gmap string string :=
  list_to_map [("=", "eq"); ("!=", "neq"); (">", "gt"); ("<", "lt");
               ("like", "like"); ("and", "and"); ("or", "or")].

Definition DATA_TYPES_SUBTYPES : list (string * list string) :=
  [("Numeric", ["Int"; "Float"; "Binary"]);
   ("Date", ["Date"; "Timestamp"]);
   ("Categorical", ["Binary Category"; "Multiple Category"; "Tags"]);
   ("Text", ["Short Text"; "Rich Text"])].

(** Two columns, three rows, a null in column [a]. *)
Definition table : DataFrame :=
  mkDF ["a"; "b"]
       [[SInt 1; SStr "bob"]; [SNull; SStr "alice"]; [SStr "1"; SStr "bobby"]].

(** Three columns, one row. *)
Definition table3 : DataFrame :=
  mkDF ["a"; "b"; "c"] [[SInt 1; SStr "x"; SInt 7]].

(** The adapter serves [d] whatever the query. *)
Definition _setup (d : DataFrame) (q : option string)
  : res (DataFrame * gmap string string) :=
  Ok (_make_col_map d).

(** [_setup] as the base class has it. *)
Definition _setup_fails (q : option string)
  : res (DataFrame * gmap string string) :=
  Raise NotImplementedError.

End Demo.

(** ** The properties, as definitions *)

Definition populated {A} (o : option A) : Prop := o ≠ None.

(** Rows and column map are both there or both missing. *)
Definition both_or_neither (s : DataSource) : Prop :=
  populated (_internal_df s) <-> populated (_internal_col_map s).

(** Rows are never there without the column map. *)
Definition rows_imply_map (s : DataSource) : Prop :=
  populated (_internal_df s) -> populated (_internal_col_map s).

(** The public operations, and the state each leaves behind whether it
    returns or raises. *)
Inductive operation :=
  | ReadRows
  | ReadColMap
  | Filter (where_ : option (list condition)) (limit : option Z)
           (get_col_map : bool)
  | DropColumns (column_list : list string)
  | SetSubtypes (data_subtypes : list (string * string)).

Section Reachability.

Context {pd : Pandas}.
Variable parse : string -> res (gmap string json).
Variable format : gmap string json -> res string.
Variable binary_ops : gmap string string.
Variable DATA_TYPES_SUBTYPES : list (string * list string).
Variable _setup : option string -> res (DataFrame * gmap string string).

Definition run (o : operation) (s : DataSource) : DataSource :=
  match o with
  | ReadRows => (df _setup s).2
  | ReadColMap => (_col_map parse format binary_ops _setup s).2
  | Filter w l g => (filter parse format binary_ops _setup w l g s).2
  | DropColumns l => (drop_columns parse format binary_ops _setup l s).2
  | SetSubtypes m =>
      (set_subtypes parse format binary_ops DATA_TYPES_SUBTYPES _setup m s).2
  end.

(** The states an object goes through from its construction. *)
Inductive reachable (sql_query : option string) : DataSource -> Prop :=
  | reach_init : reachable sql_query (__init__ sql_query)
  | reach_step s o :
      reachable sql_query s -> reachable sql_query (run o s).

End Reachability.

(** A computation keeps a property of the state, whatever its outcome. *)
Definition preserves {A} (P : DataSource -> Prop) (c : py A) : Prop :=
  forall s, P s -> P (c s).2.

(** The assignments the code makes to its object.  A property is stable
    when logging a warning and materializing the pair keep it. *)
Record stable (P : DataSource -> Prop) : Prop := {
  stable_log : forall w s, P s -> P (add_log w s);
  stable_materialize : forall d m s,
    P s -> P (set_internal_col_map (Some (ColMap m)) (set_internal_df (Some d) s))
}.

(** The remaining assignments: the probe of a query-backed source sets
    the column map alone, [set_subtypes] records a declaration,
    [drop_columns] replaces a table that is there. *)
Record stable_all (P : DataSource -> Prop) : Prop := {
  stable_base : stable P;
  stable_probe : forall cm s,
    P s -> is_sql s = true -> P (set_internal_col_map (Some cm) s);
  stable_declared : forall ty st s, P s -> P (set_declared ty st s);
  stable_drop : forall d d' s,
    P s -> _internal_df s = Some d -> P (set_internal_df (Some d') s)
}.

(** What holds of the cached pair in every state: rows never come without
    the column map, and a source that is not query-backed has both or
    neither. *)
Definition lazy_pair_inv (s : DataSource) : Prop :=
  rows_imply_map s /\ (is_sql s = false -> both_or_neither s).

(** [d'] keeps the columns of [d] and some of its rows. *)
Definition narrows (d d' : DataFrame) : Prop :=
  columns d' = columns d /\ forall row, row ∈ rows d' -> row ∈ rows d.

(** [col in cm] for a column map that is there *)
Definition present (col : string) (cm : col_map_val) : bool :=
  match cm with
  | ColMap m => bool_decide (is_Some (m !! col))
  | ColLabel s => PyStr.contains col s
  end.

(** The declarations of an object: [(data_types, data_subtypes)]. *)
Definition declared (s : DataSource) : gmap string string * gmap string string :=
  (data_types s, data_subtypes s).

(** The pairs of [m] before the first one that satisfies [f]. *)
Fixpoint before {A} (f : A -> bool) (m : list A) : list A :=
  match m with
  | [] => []
  | p :: m' => if f p then [] else p :: before f m'
  end.

(** The value as it enters the clause: a [like] pattern gets one
    wildcard at either end. *)
Definition clause_value (op : string) (value : scalar) : res scalar :=
  if String.eqb (PyStr.lower (PyStr.lower op)) "like" then
    match value with
    | SStr v => Ok (SStr ("%" ++ PyStr.strip PyStr.percent v ++ "%"))
    | _ => Raise AttributeError
    end
  else Ok value.

(** A [where] clause as the loop leaves it: a dict of one key. *)
Definition one_key (w : json) : Prop :=
  exists k args, w = JDict [(k, args)].

(** [s'] is [s] but for the warnings logged since. *)
Definition same_but_log (s s' : DataSource) : Prop :=
  declared s' = declared s /\
  _internal_df s' = _internal_df s /\
  _internal_col_map s' = _internal_col_map s /\
  is_sql s' = is_sql s /\
  query s' = query s /\
  exists ws, log s' = (log s ++ ws)%list.

(** A predicate with its operator in lower case. *)
Definition lower_op (c : condition) : condition :=
  (c.1.1, PyStr.lower c.1.2, c.2).

(** The internal name of [col]: its image in the column map, else
    [col] itself. *)
Definition resolve (m : gmap string string) (col : string) : string :=
  default col (m !! col).

Section Specification.

Context {pd : Pandas}.
Variable parse : string -> res (gmap string json).
Variable format : gmap string json -> res string.
Variable binary_ops : gmap string string.
Variable DATA_TYPES_SUBTYPES : list (string * list string).
Variable _setup : option string -> res (DataFrame * gmap string string).

(** The key under which the registry knows [op], else [op] itself in
    lower case. *)
Definition op_key (op : string) : string :=
  default (PyStr.lower (PyStr.lower op)) (binary_ops !! PyStr.lower op).

(** Reading the column map in state [s] yields [cm]. *)
Definition reads_col_map (s : DataSource) (cm : col_map_val) : Prop :=
  (_col_map parse format binary_ops _setup s).1 = Ok (Some cm).

(** A pair that makes [set_subtypes] raise: its column is in the
    column map and its subtype in no category. *)
Definition offending (cm : col_map_val) (p : string * string) : bool :=
  present p.1 cm && bool_decide (type_of_subtype DATA_TYPES_SUBTYPES p.2 = None).

(** What one pair does to the declarations. *)
Definition declare (cm : col_map_val)
    (d : gmap string string * gmap string string) (p : string * string)
  : gmap string string * gmap string string :=
  if present p.1 cm then
    match type_of_subtype DATA_TYPES_SUBTYPES p.2 with
    | Some type_ => (<[p.1 := type_]> d.1, <[p.1 := p.2]> d.2)
    | None => d
    end
  else d.

(** The clause of a predicate as the specification words it, written
    out as JSON: [{operatorKey: [column, value]}]. *)
Definition clause_json (c : condition) : res json :=
  v ← clause_value c.1.2 c.2;
  Ok (JDict [(op_key c.1.2, JList [JStr c.1.1; json_of_scalar v])]).

End Specification.

(** Whether a stored [where] counts as a where-clause: it is there and
    its [len] is positive. *)
Definition has_items (past : option json) : bool :=
  match past with
  | Some (JDict (_ :: _)) | Some (JList (_ :: _))
  | Some (JStr (String _ _)) => true
  | _ => false
  end.

(** The where-clause as the specification words it, written out as JSON:
    the clauses are taken in the order given, and each is combined with
    what was accumulated before it by [and], the new clause first:
    [{"and": [new, accumulated]}]. *)
Fixpoint nest_where (past : option json) (cs : list json) : option json :=
  match cs with
  | [] => past
  | c :: cs' =>
      nest_where
        (Some (if has_items past
               then JDict [("and", JList [c; default JNull past])]
               else c))
        cs'
  end.

(** Whether [len] takes a stored [where]: anything but a number or a
    null. *)
Definition has_len (past : option json) : bool :=
  match past with
  | Some (JNum _) | Some JNull => false
  | _ => true
  end.

(** The parsed query with its where-clause set, when there is one. *)
Definition with_where (wc : option json) (pq : gmap string json)
  : gmap string json :=
  match wc with
  | Some j => <["where" := j]> pq
  | None => pq
  end.

(** The parsed query with its limit set, when one is given. *)
Definition with_limit (limit : option Z) (pq : gmap string json)
  : gmap string json :=
  match limit with
  | Some l => <["limit" := JNum l]> pq
  | None => pq
  end.

(** The warnings for the pairs [m] whose column is not in the column
    map, one for each, in the order of the pairs. *)
Definition absent_warnings (cm : col_map_val) (m : list (string * string))
  : list warning :=
  map (fun p => ColumnNotPresent p.1 p.2)
      (List.filter (fun p => negb (present p.1 cm)) m).

(** [d'] has the columns of [d] and a subsequence of its rows. *)
Definition cut_from (d d' : DataFrame) : Prop :=
  columns d' = columns d /\ rows d' `sublist_of` rows d.

(** A query-backed source over the demo backend, just constructed. *)
Definition sql_source : DataSource := __init__ (Some Demo.the_query).
(** A source that is not query-backed. *)
Definition plain_source : DataSource := __init__ None.

(** The column map the demo backend hands over for its table. *)
Definition demo_col_map : col_map_val := ColMap (_make_col_map Demo.table).2.

(** [plain_source] with the demo table and its column map cached. *)
Definition loaded_source : DataSource :=
  set_internal_col_map (Some demo_col_map)
    (set_internal_df (Some Demo.table) plain_source).

(** * Theorems *)

(** ** The monad *)

Lemma bind_ok {A B} (c : py A) (k : A -> py B) s a s' :
  c s = (Ok a, s') -> bind c k s = k a s'.
Proof. intros Hc. unfold bind. now rewrite Hc. Qed.

Lemma bind_raise {A B} (c : py A) (k : A -> py B) s e s' :
  c s = (Raise e, s') -> bind c k s = (Raise e, s').
Proof. intros Hc. unfold bind. now rewrite Hc. Qed.

Lemma bind_inv_ok {A B} (c : py A) (k : A -> py B) s b s2 :
  bind c k s = (Ok b, s2) ->
  exists a s1, c s = (Ok a, s1) /\ k a s1 = (Ok b, s2).
Proof.
  unfold bind. destruct (c s) as [[a|e] s1]; intros Hk.
  - now exists a, s1.
  - discriminate.
Qed.

Section Preserves.

Variable P : DataSource -> Prop.

Lemma preserves_ret {A} (a : A) : preserves P (ret a).
Proof. now intros s. Qed.

Lemma preserves_raise {A} e : preserves P (@raise A e).
Proof. now intros s. Qed.

Lemma preserves_lift {A} (r : res A) : preserves P (lift r).
Proof. now intros s. Qed.

Lemma preserves_modify f :
  (forall s, P s -> P (f s)) -> preserves P (modify f).
Proof. intros Hf s Hs. now apply Hf. Qed.

Lemma preserves_bind {A B} (c : py A) (k : A -> py B) :
  preserves P c -> (forall a, preserves P (k a)) -> preserves P (bind c k).
Proof.
  intros Hc Hk s Hs. unfold bind.
  specialize (Hc s Hs). destruct (c s) as [[a|e] s1]; simpl in *.
  - now apply Hk.
  - exact Hc.
Qed.

(** After [get] the bound state is known to satisfy [P]. *)
Lemma preserves_get_bind {B} (k : DataSource -> py B) :
  (forall s0, P s0 -> preserves P (k s0)) -> preserves P (bind get k).
Proof. intros Hk s Hs. unfold bind, get. now apply Hk. Qed.

Lemma preserves_try {A} (body handler : py A) :
  preserves P body -> preserves P handler ->
  preserves P (try_except body handler).
Proof.
  intros Hb Hh s Hs. unfold try_except.
  specialize (Hb s Hs). destruct (body s) as [[a|e] s1]; simpl in *.
  - exact Hb.
  - now apply Hh.
Qed.

Lemma preserves_fold {A B} (f : A -> B -> py A) l :
  (forall a x, preserves P (f a x)) -> forall a, preserves P (py_fold f l a).
Proof.
  intros Hf. induction l as [|x l IH]; intros a; simpl.
  - apply preserves_ret.
  - apply preserves_bind; [apply Hf | intros a'; apply IH].
Qed.

Lemma preserves_for {B} (f : B -> py unit) l :
  (forall x, preserves P (f x)) -> preserves P (py_for f l).
Proof.
  intros Hf. induction l as [|x l IH]; simpl.
  - apply preserves_ret.
  - apply preserves_bind; [apply Hf | intros _; apply IH].
Qed.

End Preserves.

(** Peels one layer of a computation off a [preserves] goal. *)
Ltac preserves_step :=
  lazymatch goal with
  | |- preserves _ (bind get _) => apply preserves_get_bind; intros ? ?
  | |- preserves _ (bind _ _) => apply preserves_bind; [| intros ?]
  | |- preserves _ (ret _) => apply preserves_ret
  | |- preserves _ (raise _) => apply preserves_raise
  | |- preserves _ (lift _) => apply preserves_lift
  | |- preserves _ (try_except _ _) => apply preserves_try
  | |- preserves _ (py_fold _ _ _) => apply preserves_fold; intros ? ?
  | |- preserves _ (py_for _ _) => apply preserves_for; intros ?
  | |- preserves _ (modify _) => apply preserves_modify; intros ? ?
  | |- preserves _ (match ?x with _ => _ end) => destruct x eqn:?
  end.

Lemma stable_and_sql P b :
  stable P -> stable (fun s => P s /\ is_sql s = b).
Proof.
  intros [Hl Hm]. split.
  - intros w s [HP Hb]. split; [now apply Hl | exact Hb].
  - intros d m s [HP Hb]. split; [now apply Hm | exact Hb].
Qed.

(** ** State changes of the methods *)

Section MethodFacts.

Context {pd : Pandas}.
Variable parse : string -> res (gmap string json).
Variable format : gmap string json -> res string.
Variable binary_ops : gmap string string.
Variable DATA_TYPES_SUBTYPES : list (string * list string).
Variable _setup : option string -> res (DataFrame * gmap string string).

Abbreviation df := (df _setup).
Abbreviation pushdown := (pushdown parse format binary_ops _setup).
Abbreviation fallback := (fallback _setup).
Abbreviation filter := (filter parse format binary_ops _setup).
Abbreviation _col_map := (_col_map parse format binary_ops _setup).
Abbreviation set_subtype :=
  (set_subtype parse format binary_ops DATA_TYPES_SUBTYPES _setup).
Abbreviation set_subtypes :=
  (set_subtypes parse format binary_ops DATA_TYPES_SUBTYPES _setup).
Abbreviation resolve_column := (resolve_column parse format binary_ops _setup).
Abbreviation drop_columns := (drop_columns parse format binary_ops _setup).
Abbreviation where_step := (where_step binary_ops).

Section Stable.

Variable P : DataSource -> Prop.
Hypothesis HP : stable P.

Lemma df_preserves : preserves P df.
Proof.
  unfold df. repeat preserves_step.
  now apply (stable_materialize P HP).
Qed.

Lemma where_step_preserves pq c : preserves P (where_step pq c).
Proof.
  destruct c as [[col op] value]. unfold where_step.
  repeat preserves_step; now apply (stable_log P HP).
Qed.

Lemma pushdown_preserves w l g : preserves P (pushdown w l g).
Proof.
  unfold pushdown. repeat preserves_step.
  apply where_step_preserves.
Qed.

Lemma fallback_preserves w l : preserves P (fallback w l).
Proof.
  unfold fallback. repeat preserves_step.
  apply df_preserves.
Qed.

Lemma filter_preserves w l g : preserves P (filter w l g).
Proof.
  unfold filter. preserves_step.
  - apply pushdown_preserves.
  - apply fallback_preserves.
Qed.

End Stable.

(** [_col_map] also assigns the column map alone, after the probe of a
    query-backed source. *)
Section StableProbe.

Variable P : DataSource -> Prop.
Hypothesis HP : stable P.
Hypothesis Hprobe : forall cm s,
  P s -> is_sql s = true -> P (set_internal_col_map (Some cm) s).

Lemma _col_map_preserves : preserves P _col_map.
Proof.
  intros s Hs. unfold _col_map.
  unfold bind at 1, get at 1.
  destruct (_internal_col_map s) eqn:Hcm.
  - unfold bind, ret, get. simpl. exact Hs.
  - destruct (is_sql s) eqn:Hsql.
    + pose proof (filter_preserves _ (stable_and_sql P true HP)
                    (Some []) (Some 1) true s (conj Hs Hsql)) as Hf.
      unfold bind at 1. unfold bind at 1.
      destruct (filter (Some []) (Some 1) true s) as [[r|e] s1];
        simpl in Hf; [| tauto].
      unfold bind at 1, lift at 1.
      destruct (unpack_col_map r) as [cm|e]; [| tauto].
      unfold modify, bind, get, ret. simpl.
      apply Hprobe; tauto.
    + unfold bind at 1. unfold bind at 1. unfold lift at 1.
      destruct (_setup None) as [r|e]; [| exact Hs].
      unfold modify, bind, get, ret. simpl.
      now apply (stable_materialize P HP).
Qed.

End StableProbe.

Section StableAll.

Variable P : DataSource -> Prop.
Hypothesis HP : stable_all P.

Lemma _col_map_preserves_all : preserves P _col_map.
Proof.
  apply _col_map_preserves;
    [exact (stable_base P HP) | exact (stable_probe P HP)].
Qed.

Lemma set_subtype_preserves p : preserves P (set_subtype p).
Proof.
  destruct p as [col subtype]. unfold set_subtype.
  preserves_step; [apply _col_map_preserves_all |].
  repeat preserves_step.
  - now apply (stable_log P (stable_base P HP)).
  - now apply (stable_declared P HP).
Qed.

Lemma set_subtypes_preserves m : preserves P (set_subtypes m).
Proof.
  unfold set_subtypes. preserves_step.
  apply set_subtype_preserves.
Qed.

Lemma resolve_column_preserves acc col :
  preserves P (resolve_column acc col).
Proof.
  unfold resolve_column.
  preserves_step; [apply _col_map_preserves_all |].
  repeat preserves_step. apply _col_map_preserves_all.
Qed.

Lemma drop_columns_preserves l : preserves P (drop_columns l).
Proof.
  intros s Hs. unfold drop_columns.
  pose proof (preserves_fold P resolve_column l
                resolve_column_preserves [] s Hs) as Hf.
  unfold bind at 1.
  destruct (py_fold resolve_column l [] s) as [[cols|e] s1];
    simpl in Hf; [| exact Hf].
  unfold bind at 1, get at 1.
  destruct (_internal_df s1) as [d|] eqn:Hd; [| exact Hf].
  unfold bind, lift. destruct (DF.drop cols d) as [d'|e]; [| exact Hf].
  unfold modify. simpl. now apply (stable_drop P HP d).
Qed.

(** Every public operation keeps [P]. *)
Lemma run_preserves o s :
  P s -> P (run parse format binary_ops DATA_TYPES_SUBTYPES _setup o s).
Proof.
  intros Hs. destruct o as [| |w l g|l|m]; simpl.
  - now apply (df_preserves P (stable_base P HP)).
  - now apply _col_map_preserves_all.
  - now apply (filter_preserves P (stable_base P HP)).
  - now apply drop_columns_preserves.
  - now apply set_subtypes_preserves.
Qed.

Lemma reachable_preserves q s :
  P (__init__ q) ->
  reachable parse format binary_ops DATA_TYPES_SUBTYPES _setup q s ->
  P s.
Proof.
  intros Hinit Hr. induction Hr as [|s o Hr IH].
  - exact Hinit.
  - now apply run_preserves.
Qed.

End StableAll.

End MethodFacts.

(** ** The lazily cached pair *)

Lemma populated_Some {A} (a : A) : populated (Some a).
Proof. unfold populated. discriminate. Qed.

Lemma lazy_pair_inv_stable : stable lazy_pair_inv.
Proof.
  split.
  - intros w s Hs. exact Hs.
  - intros d m s _. split.
    + intros _. apply populated_Some.
    + intros _. split; intros _; apply populated_Some.
Qed.

Section LazyPair.

Context {pd : Pandas}.
Variable parse : string -> res (gmap string json).
Variable format : gmap string json -> res string.
Variable binary_ops : gmap string string.
Variable DATA_TYPES_SUBTYPES : list (string * list string).
Variable _setup : option string -> res (DataFrame * gmap string string).

Lemma lazy_pair_inv_stable_all : stable_all lazy_pair_inv.
Proof.
  split.
  - exact lazy_pair_inv_stable.
  - intros cm s _ Hsql. split.
    + intros _. apply populated_Some.
    + simpl. congruence.
  - intros ty st s Hs. exact Hs.
  - intros d d' s [Hr Hb] Hd.
    unfold lazy_pair_inv, rows_imply_map, both_or_neither in *.
    simpl in *. rewrite Hd in *.
    split.
    + intros _. apply Hr, populated_Some.
    + intros Hq. split; intros _; [apply Hr |]; apply populated_Some.
Qed.

Lemma lazy_pair_inv_init q : lazy_pair_inv (__init__ q).
Proof.
  unfold lazy_pair_inv, rows_imply_map, both_or_neither, populated. simpl.
  tauto.
Qed.

(** C1, as amended: in every state an object reaches through its public
    operations (reading the rows, reading the column map, [filter],
    [drop_columns], [set_subtypes], whether they return or raise), the
    rows are never populated without the column map; and when the
    source is not query-backed, rows and column map are populated
    together or not at all. *)
Theorem lazy_pair_reachable q s :
  reachable parse format binary_ops DATA_TYPES_SUBTYPES _setup q s ->
  rows_imply_map s /\ (q = None -> both_or_neither s).
Proof.
  intros Hr.
  assert (Hinv : lazy_pair_inv s /\ is_sql s = bool_decide (q ≠ None)).
  { apply (reachable_preserves parse format binary_ops DATA_TYPES_SUBTYPES
             _setup (fun s => lazy_pair_inv s /\ is_sql s = bool_decide (q ≠ None)))
      with (q := q); [| | exact Hr].
    - destruct lazy_pair_inv_stable_all as [[Hl Hm] Hp Hd Hdr].
      split; [split |..].
      + intros w s0 [H1 H2]. split; [now apply Hl | exact H2].
      + intros d m s0 [H1 H2]. split; [now apply Hm | exact H2].
      + intros cm s0 [H1 H2] Hs. split; [now apply Hp | exact H2].
      + intros ty st s0 Hs0. exact Hs0.
      + intros d d' s0 [H1 H2] Hs. split; [now apply (Hdr d) | exact H2].
    - split; [apply lazy_pair_inv_init | reflexivity]. }
  destruct Hinv as [[Hrows Hboth] Hsql]. split; [exact Hrows |].
  intros ->. apply Hboth. rewrite Hsql. reflexivity.
Qed.

End LazyPair.

(** The state of [plain_source] after its rows were read is reachable,
    and there the pair is populated together. *)
Lemma lazy_pair_reachable_witness :
  let s := run (pd := Demo.pandas) Demo.parse Demo.format Demo.binary_ops Demo.DATA_TYPES_SUBTYPES
               (Demo._setup Demo.table) ReadRows plain_source in
  rows_imply_map s /\ (@None string = None -> both_or_neither s).
Proof.
  apply (lazy_pair_reachable (pd := Demo.pandas) Demo.parse Demo.format Demo.binary_ops
           Demo.DATA_TYPES_SUBTYPES (Demo._setup Demo.table) None).
  apply reach_step. apply reach_init.
Defined.

(** C1 as stated fails: reading the column map of a query-backed source
    whose probe the backend answers populates the column map and leaves
    the rows unpopulated. *)
Lemma col_map_without_rows :
  both_or_neither sql_source /\
  ~ both_or_neither
      (run (pd := Demo.pandas) Demo.parse Demo.format Demo.binary_ops
           Demo.DATA_TYPES_SUBTYPES (Demo._setup Demo.table) ReadColMap
           sql_source).
Proof.
  split.
  - unfold both_or_neither, populated. simpl. tauto.
  - unfold both_or_neither, populated. intros [_ Hb].
    apply Hb; [| reflexivity]. vm_compute. discriminate.
Qed.

(** ** [filter]: the fallback path *)

Section FilterFacts.

Context {pd : Pandas}.
Variable parse : string -> res (gmap string json).
Variable format : gmap string json -> res string.
Variable binary_ops : gmap string string.
Variable _setup : option string -> res (DataFrame * gmap string string).

Abbreviation fallback := (fallback _setup).
Abbreviation filter := (filter parse format binary_ops _setup).

(** A source that is not query-backed fails the assertion that opens
    the [try], so [filter] is its [except] branch. *)
Lemma filter_not_sql s w l g :
  is_sql s = false -> filter w l g s = fallback w l s.
Proof.
  intros Hsql. unfold filter, try_except, pushdown.
  unfold bind at 1, get at 1. unfold bind at 1. rewrite Hsql. reflexivity.
Qed.

(** The fallback returns the table alone. *)
Lemma fallback_rows_alone s w l r s' :
  fallback w l s = (Ok r, s') -> exists d, r = Rows d.
Proof.
  unfold fallback. intros Hf.
  apply bind_inv_ok in Hf as (d0 & s1 & _ & Hf).
  apply bind_inv_ok in Hf as (d1 & s2 & _ & Hf).
  destruct (truthy_limit l); inversion Hf; eauto.
Qed.

(** With a limit other than [0] the fallback returns the first [l]
    rows of what it returns without one. *)
Lemma fallback_limit s w l :
  l <> 0 ->
  fallback w (Some l) s =
  match fallback w None s with
  | (Ok r, s') => (Ok (Rows (DF.head l (result_rows r))), s')
  | (Raise e, s') => (Raise e, s')
  end.
Proof.
  intros Hl. unfold fallback, bind.
  destruct (df _setup s) as [[d0|e] s1]; [| reflexivity].
  unfold lift.
  destruct (res_fold (fun df cond => _filter_df cond df) (default [] w) d0)
    as [d1|e];
    [| reflexivity].
  simpl. destruct (Z.eqb_spec l 0) as [->|_]; [contradiction | reflexivity].
Qed.

Lemma filter_not_sql_limit s w l g :
  is_sql s = false -> l <> 0 ->
  filter w (Some l) g s =
  match filter w None g s with
  | (Ok r, s') => (Ok (Rows (DF.head l (result_rows r))), s')
  | (Raise e, s') => (Raise e, s')
  end.
Proof.
  intros Hsql Hl. rewrite !filter_not_sql by exact Hsql.
  now apply fallback_limit.
Qed.

(** Without [get_col_map], [filter] returns the table alone on either
    path; with it, the pushdown path returns the pair. *)
Lemma filter_rows_alone s w l r s' :
  filter w l false s = (Ok r, s') -> exists d, r = Rows d.
Proof.
  unfold filter, try_except.
  destruct (pushdown parse format binary_ops _setup w l false s)
    as [[r0|e] s0] eqn:Hpush.
  - intros [= <- <-]. unfold pushdown in Hpush.
    apply bind_inv_ok in Hpush as (s1 & s2 & _ & Hpush).
    apply bind_inv_ok in Hpush as (u & s3 & _ & Hpush).
    apply bind_inv_ok in Hpush as (pq & s4 & _ & Hpush).
    apply bind_inv_ok in Hpush as (pq' & s5 & _ & Hpush).
    apply bind_inv_ok in Hpush as (q & s6 & _ & Hpush).
    apply bind_inv_ok in Hpush as (r & s7 & _ & Hpush).
    injection Hpush as <- _. eauto.
  - apply fallback_rows_alone.
Qed.

Lemma pushdown_pair s w l r s' :
  pushdown parse format binary_ops _setup w l true s = (Ok r, s') ->
  exists d m, r = RowsAndMap d m.
Proof.
  unfold pushdown. intros Hpush.
  apply bind_inv_ok in Hpush as (s1 & s2 & _ & Hpush).
  apply bind_inv_ok in Hpush as (u & s3 & _ & Hpush).
  apply bind_inv_ok in Hpush as (pq & s4 & _ & Hpush).
  apply bind_inv_ok in Hpush as (pq' & s5 & _ & Hpush).
  apply bind_inv_ok in Hpush as (q & s6 & _ & Hpush).
  apply bind_inv_ok in Hpush as (r0 & s7 & _ & Hpush).
  injection Hpush as <- _. eauto.
Qed.

(** A limit of [0] is no limit on the fallback path. *)
Lemma fallback_limit_zero s w : fallback w (Some 0) s = fallback w None s.
Proof. reflexivity. Qed.

End FilterFacts.

(** C2 at limit [0]: on a source that is not query-backed, over a table
    of three rows, [filter(where=None, limit=0)] returns all three rows —
    what it returns without a limit — where truncation to the first [0]
    rows leaves none. *)
Theorem filter_limit_zero_not_truncated :
  let run_filter limit :=
    (filter (pd := Demo.pandas) Demo.parse Demo.format Demo.binary_ops
            (Demo._setup Demo.table) None limit false plain_source).1 in
  run_filter (Some 0) = Ok (Rows Demo.table) /\
  run_filter None = Ok (Rows Demo.table) /\
  rows (DF.head 0 Demo.table) = [] /\
  length (rows Demo.table) = 3%nat.
Proof. vm_compute. repeat split. Qed.

(** C3 on the fallback path: a query-backed source whose query the parser
    rejects answers [filter(where=[], limit=1, get_col_map=True)] — the
    call [_col_map] makes — with a table alone, not with a pair. *)
Theorem filter_fallback_drops_col_map :
  (filter (pd := Demo.pandas) Demo.parse_fails Demo.format Demo.binary_ops
          (Demo._setup Demo.table) (Some []) (Some 1) true sql_source).1
  = Ok (Rows (DF.head 1 Demo.table)).
Proof. vm_compute. reflexivity. Qed.

(** ** The pushdown translator *)

Lemma py_fold_app {A B} (f : A -> B -> py A) l1 l2 a s :
  py_fold f (l1 ++ l2) a s = bind (py_fold f l1 a) (py_fold f l2) s.
Proof.
  revert a s. induction l1 as [|x l1 IH]; intros a s; simpl.
  - reflexivity.
  - unfold bind in *. destruct (f a x s) as [[a'|e] s1]; [| reflexivity].
    apply IH.
Qed.

Lemma py_for_cons {B} (f : B -> py unit) x l s :
  py_for f (x :: l) s =
  match f x s with
  | (Ok _, s') => py_for f l s'
  | (Raise e, s') => (Raise e, s')
  end.
Proof. reflexivity. Qed.

Section Translator.

Variable binary_ops : gmap string string.

Abbreviation op_key := (op_key binary_ops).

Lemma where_step_ok pq col op value s pq' s' :
  where_step binary_ops pq (col, op, value) s = (Ok pq', s') ->
  exists v n,
    clause_value op value = Ok v /\
    py_len (default (JDict []) (pq !! "where")) = Ok n /\
    pq' = <["where" :=
              if (0 <? n)%nat
              then and_clause (clause (op_key op) col v)
                              (default (JDict []) (pq !! "where"))
              else clause (op_key op) col v]> pq.
Proof.
  unfold where_step, op_key, clause_value. intros Hs.
  apply bind_inv_ok in Hs as (k & s1 & Hk & Hs).
  apply bind_inv_ok in Hs as (v & s2 & Hv & Hs).
  apply bind_inv_ok in Hs as (n & s3 & Hn & Hs).
  exists v, n.
  assert (Hkey : k = default (PyStr.lower (PyStr.lower op))
                             (binary_ops !! PyStr.lower op)).
  { destruct (binary_ops !! PyStr.lower op) as [j|]; simpl.
    - inversion Hk. reflexivity.
    - unfold bind, modify, ret in Hk. inversion Hk. reflexivity. }
  subst k. split; [| split].
  - destruct (String.eqb (PyStr.lower (PyStr.lower op)) "like").
    + destruct value; inversion Hv; reflexivity.
    + inversion Hv. reflexivity.
  - unfold lift in Hn. inversion Hn. reflexivity.
  - inversion Hs. reflexivity.
Qed.

Lemma where_step_one_key pq c s pq' s' :
  where_step binary_ops pq c s = (Ok pq', s') ->
  exists w, pq' !! "where" = Some w /\ one_key w.
Proof.
  destruct c as [[col op] value]. intros Hs.
  apply where_step_ok in Hs as (v & n & _ & _ & ->).
  rewrite lookup_insert_eq. eexists; split; [reflexivity |].
  destruct (0 <? n)%nat; unfold one_key, and_clause, clause; eauto.
Qed.

Lemma where_fold_one_key ps : forall pq s pq' s',
  ps <> [] ->
  py_fold (where_step binary_ops) ps pq s = (Ok pq', s') ->
  exists w, pq' !! "where" = Some w /\ one_key w.
Proof.
  induction ps as [|p ps IH]; intros pq s pq' s' Hne Hf; [contradiction |].
  simpl in Hf. apply bind_inv_ok in Hf as (pq1 & s1 & Hstep & Hf).
  destruct ps as [|p' ps].
  - simpl in Hf. inversion Hf; subst. eapply where_step_one_key, Hstep.
  - eapply IH; [discriminate | exact Hf].
Qed.

Lemma where_step_run pq col op value s v n :
  clause_value op value = Ok v ->
  py_len (default (JDict []) (pq !! "where")) = Ok n ->
  exists s',
    where_step binary_ops pq (col, op, value) s
    = (Ok (<["where" :=
               if (0 <? n)%nat
               then and_clause (clause (op_key op) col v)
                               (default (JDict []) (pq !! "where"))
               else clause (op_key op) col v]> pq), s').
Proof.
  unfold clause_value, op_key, where_step. intros Hv Hn.
  destruct (binary_ops !! PyStr.lower op) as [j|]; simpl;
    unfold bind, modify, ret, lift; simpl; rewrite Hn;
    destruct (String.eqb (PyStr.lower (PyStr.lower op)) "like");
    try (destruct value; try discriminate);
    inversion Hv; subst; eexists; reflexivity.
Qed.

(** The loop goes through when every [like] pattern is a string and the
    parsed query has no [where] or one the loop could have made. *)
Lemma where_fold_total ps : forall pq s,
  Forall (fun c : condition => exists v, clause_value c.1.2 c.2 = Ok v) ps ->
  (pq !! "where" = None \/ exists w, pq !! "where" = Some w /\ one_key w) ->
  exists pq' s', py_fold (where_step binary_ops) ps pq s = (Ok pq', s').
Proof.
  induction ps as [|[[col op] value] ps IH]; intros pq s Hall Hw.
  - simpl. unfold ret. eauto.
  - inversion Hall as [|c cs [v Hv] Hrest]; subst. simpl in Hv.
    assert (Hn : exists n, py_len (default (JDict []) (pq !! "where")) = Ok n).
    { destruct Hw as [->|(w & -> & k & args & ->)]; simpl; eauto. }
    destruct Hn as [n Hn].
    destruct (where_step_run pq col op value s v n Hv Hn) as [s1 Hstep].
    simpl. rewrite (bind_ok _ _ _ _ _ Hstep).
    apply IH; [exact Hrest |].
    right. eapply where_step_one_key, Hstep.
Qed.

End Translator.

(** ** The translated query *)

Lemma py_len_has_items (o : option json) n :
  py_len (default (JDict []) o) = Ok n ->
  (0 <? n)%nat = has_items o /\ has_len o = true.
Proof.
  destruct o as [[| |str|l|kvs]|]; simpl; try discriminate;
    intros [= <-]; split; try reflexivity.
  - now destruct str.
  - now destruct l.
  - now destruct kvs.
Qed.

Lemma has_len_py_len (o : option json) :
  has_len o = true -> exists n, py_len (default (JDict []) o) = Ok n.
Proof. destruct o as [[| |str|l|kvs]|]; simpl; try discriminate; eauto. Qed.

Lemma one_key_has_items w :
  one_key w -> has_items (Some w) = true /\ has_len (Some w) = true.
Proof. intros (k & args & ->). split; reflexivity. Qed.

Lemma with_where_lookup (pq : gmap string json) :
  with_where (pq !! "where") pq = pq.
Proof.
  unfold with_where. destruct (pq !! "where") as [j|] eqn:Hw; [| reflexivity].
  now apply insert_id.
Qed.

Lemma nest_where_app past cs c :
  nest_where past (cs ++ [c]) =
  Some (if has_items (nest_where past cs)
        then JDict [("and", JList [c; default JNull (nest_where past cs)])]
        else c).
Proof. revert past. induction cs as [|c' cs IH]; intros past; simpl; auto. Qed.

Lemma nest_where_one_key cs : forall past,
  Forall one_key cs -> cs <> [] ->
  exists w, nest_where past cs = Some w /\ one_key w.
Proof.
  induction cs as [|c cs IH]; intros past Hall Hne; [contradiction |].
  apply Forall_cons in Hall as [Hc Hall]. simpl.
  destruct cs as [|c' cs].
  - simpl. eexists; split; [reflexivity |].
    destruct (has_items past); [unfold one_key; eauto | exact Hc].
  - apply IH; [exact Hall | discriminate].
Qed.

Section WhereClause.

Variable binary_ops : gmap string string.

Abbreviation op_key := (op_key binary_ops).
Abbreviation clause_json := (clause_json binary_ops).

Lemma clause_json_inv (c : condition) j :
  clause_json c = Ok j ->
  exists v, clause_value c.1.2 c.2 = Ok v /\
            j = JDict [(op_key c.1.2, JList [JStr c.1.1; json_of_scalar v])].
Proof.
  unfold clause_json, mbind, res_mbind, res_bind.
  destruct (clause_value c.1.2 c.2) as [v|e]; [| discriminate].
  intros [= <-]. eauto.
Qed.

Lemma clause_json_one_key (c : condition) j :
  clause_json c = Ok j -> one_key j.
Proof. intros (v & _ & ->)%clause_json_inv. unfold one_key. eauto. Qed.

Lemma clauses_one_key (w : list condition) cs :
  Forall2 (fun c j => clause_json c = Ok j) w cs -> Forall one_key cs.
Proof.
  induction 1 as [|c j w cs Hc _ IH]; constructor; [| exact IH].
  eapply clause_json_one_key, Hc.
Qed.

Lemma clauses_unique (w : list condition) cs cs' :
  Forall2 (fun c j => clause_json c = Ok j) w cs ->
  Forall2 (fun c j => clause_json c = Ok j) w cs' ->
  cs = cs'.
Proof.
  intros H. revert cs'. induction H as [|c j w cs Hc _ IH]; intros cs' H'.
  - now inversion H'.
  - inversion H' as [|c0 j' w0 cs0 Hc' Hrest]; subst.
    f_equal; [congruence | now apply IH].
Qed.

(** One turn of the loop, read back from its result. *)
Lemma where_step_exact pq (c : condition) s pq' s' :
  where_step binary_ops pq c s = (Ok pq', s') ->
  exists j,
    clause_json c = Ok j /\
    has_len (pq !! "where") = true /\
    pq' = <["where" :=
              if has_items (pq !! "where")
              then JDict [("and", JList [j; default JNull (pq !! "where")])]
              else j]> pq.
Proof.
  destruct c as [[col op] value]. intros Hs.
  apply where_step_ok in Hs as (v & n & Hv & Hn & ->).
  apply py_len_has_items in Hn as [-> Hlen].
  eexists. split; [| split; [exact Hlen |]].
  - unfold clause_json. simpl. rewrite Hv. reflexivity.
  - unfold and_clause, clause.
    destruct (pq !! "where") as [w|]; reflexivity.
Qed.

(** The whole loop, read back from its result. *)
Lemma where_fold_exact (w : list condition) : forall pq s pq' s',
  py_fold (where_step binary_ops) w pq s = (Ok pq', s') ->
  exists cs,
    Forall2 (fun c j => clause_json c = Ok j) w cs /\
    (w <> [] -> has_len (pq !! "where") = true) /\
    pq' = with_where (nest_where (pq !! "where") cs) pq.
Proof.
  induction w as [|c w IH]; intros pq s pq' s' Hf.
  - injection Hf as <- _. exists []. split; [constructor |].
    split; [contradiction |]. simpl. now rewrite with_where_lookup.
  - simpl in Hf. apply bind_inv_ok in Hf as (pq1 & s1 & Hstep & Hf).
    apply where_step_exact in Hstep as (j & Hj & Hlen & ->).
    apply IH in Hf as (cs & Hcs & _ & ->).
    exists (j :: cs). split; [now constructor |]. split; [auto |].
    rewrite lookup_insert_eq. simpl.
    set (x := if has_items (pq !! "where") then _ else _).
    assert (Hsome : exists y, nest_where (Some x) cs = Some y).
    { destruct cs as [|c' cs]; simpl; [eauto |].
      destruct (nest_where_one_key (c' :: cs) (Some x)) as (y & Hy & _);
        [| discriminate | eauto].
      apply clauses_one_key in Hcs. exact Hcs. }
    destruct Hsome as [y ->]. simpl. apply insert_insert_eq.
Qed.

(** The loop goes through when every predicate has a clause and [len]
    takes the [where] of the parsed query. *)
Lemma where_fold_runs (w : list condition) : forall pq s cs,
  Forall2 (fun c j => clause_json c = Ok j) w cs ->
  (w <> [] -> has_len (pq !! "where") = true) ->
  exists pq' s', py_fold (where_step binary_ops) w pq s = (Ok pq', s').
Proof.
  induction w as [|[[col op] value] w IH]; intros pq s cs Hcs Hlen.
  - simpl. unfold ret. eauto.
  - inversion Hcs as [|c j w0 cs0 Hj Hrest]; subst.
    apply clause_json_inv in Hj as (v & Hv & _). simpl in Hv.
    destruct (has_len_py_len (pq !! "where")) as [n Hn]; [now apply Hlen |].
    destruct (where_step_run binary_ops pq col op value s v n Hv Hn)
      as [s1 Hstep].
    simpl. rewrite (bind_ok _ _ _ _ _ Hstep).
    apply (IH _ _ cs0 Hrest). intros _.
    apply where_step_one_key in Hstep as (x & -> & Hx).
    now apply one_key_has_items.
Qed.

End WhereClause.

Section PushdownQuery.

Variable parse : string -> res (gmap string json).
Variable format : gmap string json -> res string.
Variable binary_ops : gmap string string.
Variable _setup : option string -> res (DataFrame * gmap string string).

Abbreviation pushdown := (pushdown parse format binary_ops _setup).

(** When the body of the [try] returns, and what. *)
Lemma pushdown_returns w limit g s r :
  (exists s', pushdown w limit g s = (Ok r, s')) <->
  (is_sql s = true /\
   exists q pq0 cs text d m,
     query s = Some q /\ parse q = Ok pq0 /\
     (default [] w <> [] -> has_len (pq0 !! "where") = true) /\
     Forall2 (fun c j => clause_json binary_ops c = Ok j) (default [] w) cs /\
     format (with_limit limit
               (with_where (nest_where (pq0 !! "where") cs) pq0)) = Ok text /\
     _setup (Some (PyStr.replace PyStr.dquote PyStr.squote text))
       = Ok (d, m) /\
     r = if g then RowsAndMap d m else Rows d).
Proof.
  split.
  - intros [s' Hpush]. unfold pushdown in Hpush.
    apply bind_inv_ok in Hpush as (s0 & s1 & Hget & Hpush).
    injection Hget as <- <-.
    apply bind_inv_ok in Hpush as (u & s2 & Hsql & Hpush).
    destruct (is_sql s) eqn:Hs; [| discriminate]. injection Hsql as _ <-.
    apply bind_inv_ok in Hpush as (pq0 & s3 & Hparse & Hpush).
    injection Hparse as Hparse <-.
    destruct (query s) as [q|] eqn:Hq; [| discriminate].
    apply bind_inv_ok in Hpush as (pq & s4 & Hfold & Hpush).
    apply where_fold_exact in Hfold as (cs & Hcs & Hlen & ->).
    apply bind_inv_ok in Hpush as (text & s5 & Hformat & Hpush).
    injection Hformat as Hformat <-.
    apply bind_inv_ok in Hpush as ([d m] & s6 & Hsetup & Hpush).
    injection Hsetup as Hsetup <-.
    split; [reflexivity |].
    exists q, pq0, cs, text, d, m. split_and!; try assumption; try reflexivity.
    destruct g; injection Hpush as <- _; reflexivity.
  - intros (Hs & q & pq0 & cs & text & d & m
            & Hq & Hparse & Hlen & Hcs & Hformat & Hsetup & ->).
    destruct (where_fold_runs binary_ops (default [] w) pq0 s cs Hcs Hlen)
      as (pq & s1 & Hfold).
    pose proof Hfold as Hexact.
    apply where_fold_exact in Hexact as (cs' & Hcs' & _ & ->).
    rewrite (clauses_unique binary_ops _ _ _ Hcs' Hcs) in Hfold.
    exists s1. unfold pushdown.
    unfold bind at 1, get at 1. rewrite Hs.
    unfold bind at 1, ret at 1.
    unfold bind at 1, lift at 1. rewrite Hq, Hparse.
    rewrite (bind_ok _ _ _ _ _ Hfold).
    unfold with_limit in Hformat.
    unfold bind at 1, lift at 1. rewrite Hformat.
    unfold bind at 1, lift at 1. rewrite Hsetup.
    destruct g; reflexivity.
Qed.

(** C4: with two or more predicates, the body of the [try] returns
    exactly when the source is query-backed, its query parses, [len]
    takes the [where] of the parsed query, every predicate has a clause,
    and the serializer and the adapter accept what they are given.  What
    the serializer is given is the parsed query with its [where] set to
    [{"and": [new, past]}], and its limit if there is one: [new], the
    clause [{operatorKey: [column, value]}] of the last predicate, is the
    first operand of the outermost [and]; [past], the where-clause
    accumulated from the earlier predicates in their order, each put in
    front of what came before it, is the second. *)
Theorem where_newest_first ps col op value limit g s r :
  ps <> [] ->
  (exists s',
     pushdown (Some (ps ++ [(col, op, value)])%list) limit g s = (Ok r, s'))
  <->
  (is_sql s = true /\
   exists q pq0 cs past v text d m,
     query s = Some q /\ parse q = Ok pq0 /\
     has_len (pq0 !! "where") = true /\
     Forall2 (fun c j => clause_json binary_ops c = Ok j) ps cs /\
     nest_where (pq0 !! "where") cs = Some past /\
     clause_value op value = Ok v /\
     format
       (with_limit limit
          (<["where" :=
               JDict [("and",
                       JList [JDict [(op_key binary_ops op,
                                      JList [JStr col; json_of_scalar v])];
                              past])]]> pq0)) = Ok text /\
     _setup (Some (PyStr.replace PyStr.dquote PyStr.squote text))
       = Ok (d, m) /\
     r = if g then RowsAndMap d m else Rows d).
Proof.
  intros Hne. rewrite pushdown_returns. simpl default.
  split.
  - intros (Hs & q & pq0 & cs0 & text & d & m
            & Hq & Hparse & Hlen & Hcs & Hformat & Hsetup & Hr).
    split; [exact Hs |].
    apply Forall2_app_inv_l in Hcs as (cs & cl & Hcs & Hcl & ->).
    inversion Hcl as [|c j w0 cs1 Hj Hnil]; subst. inversion Hnil; subst.
    apply clause_json_inv in Hj as (v & Hv & ->). simpl in Hv.
    destruct (nest_where_one_key cs (pq0 !! "where")) as (past & Hpast & Hone).
    { eapply clauses_one_key, Hcs. }
    { intros ->. inversion Hcs. now subst. }
    rewrite nest_where_app, Hpast in Hformat.
    destruct (one_key_has_items past Hone) as [Hitems _].
    rewrite Hitems in Hformat. simpl in Hformat.
    exists q, pq0, cs, past, v, text, d, m.
    split_and!; try assumption; try reflexivity.
    apply Hlen. now destruct ps.
  - intros (Hs & q & pq0 & cs & past & v & text & d & m
            & Hq & Hparse & Hlen & Hcs & Hpast & Hv & Hformat & Hsetup & Hr).
    split; [exact Hs |].
    set (j := JDict [(op_key binary_ops op, JList [JStr col; json_of_scalar v])]).
    assert (Hone : one_key past).
    { destruct (nest_where_one_key cs (pq0 !! "where")) as (w & Hw & Hone).
      - eapply clauses_one_key, Hcs.
      - intros ->. inversion Hcs. now subst.
      - congruence. }
    destruct (one_key_has_items past Hone) as [Hitems _].
    exists q, pq0, (cs ++ [j])%list, text, d, m.
    split_and!; try assumption.
    + intros _. exact Hlen.
    + apply Forall2_app; [exact Hcs |]. constructor; [| constructor].
      unfold clause_json. simpl. rewrite Hv. reflexivity.
    + rewrite nest_where_app, Hpast, Hitems. exact Hformat.
Qed.

End PushdownQuery.

(** The predicates [("a", "=", 1)] then [("b", ">", 5)] on the demo
    source: the loop leaves [{"and": [{"gt": ["b", 5]}, {"eq": ["a", 1]}]}],
    the [b] clause outermost and first, the [a] clause inside. *)
Lemma where_newest_first_witness :
  (py_fold (where_step Demo.binary_ops)
           [("a", "=", SInt 1); ("b", ">", SInt 5)]
           (∅ : gmap string json) sql_source).1
  = Ok (<["where" :=
            JDict [("and",
                    JList [JDict [("gt", JList [JStr "b"; JNum 5])];
                           JDict [("eq", JList [JStr "a"; JNum 1])]])]]> ∅) /\
  is_sql sql_source = true /\
  exists q pq0 cs past v text d m,
    query sql_source = Some q /\ Demo.parse q = Ok pq0 /\
    has_len (pq0 !! "where") = true /\
    Forall2 (fun c j => clause_json Demo.binary_ops c = Ok j)
            [("a", "=", SInt 1)] cs /\
    nest_where (pq0 !! "where") cs = Some past /\
    clause_value ">" (SInt 5) = Ok v /\
    Demo.format
      (with_limit (Some 2)
         (<["where" :=
              JDict [("and",
                      JList [JDict [(op_key Demo.binary_ops ">",
                                     JList [JStr "b"; json_of_scalar v])];
                             past])]]> pq0)) = Ok text /\
    Demo._setup Demo.table
      (Some (PyStr.replace PyStr.dquote PyStr.squote text)) = Ok (d, m) /\
    RowsAndMap Demo.table (_make_col_map Demo.table).2
    = if true then RowsAndMap d m else Rows d.
Proof.
  split; [vm_compute; reflexivity |].
  apply (where_newest_first Demo.parse Demo.format Demo.binary_ops
           (Demo._setup Demo.table) [("a", "=", SInt 1)] "b" ">" (SInt 5)
           (Some 2) true sql_source
           (RowsAndMap Demo.table (_make_col_map Demo.table).2)).
  - discriminate.
  - eexists. vm_compute. reflexivity.
Defined.

(** ** The in-memory evaluator *)

Lemma res_bind_inv_ok {A B} (r : res A) (k : A -> res B) b :
  (a ← r; k a) = Ok b -> exists a, r = Ok a /\ k a = Ok b.
Proof.
  unfold mbind, res_mbind, res_bind. destruct r as [a|e]; intros Hk.
  - now exists a.
  - discriminate.
Qed.

Lemma narrows_refl d : narrows d d.
Proof. split; auto. Qed.

Lemma narrows_trans d1 d2 d3 : narrows d1 d2 -> narrows d2 d3 -> narrows d1 d3.
Proof. intros [Hc1 Hr1] [Hc2 Hr2]. split; [congruence | auto]. Qed.

Lemma select_elem_of {A} (l : list A) mask x :
  x ∈ DF.select l mask -> x ∈ l.
Proof.
  revert mask. induction l as [|y l IH]; intros [|b mask]; simpl;
    try (intros Hx; now apply elem_of_nil in Hx).
  destruct b; intros Hx.
  - apply elem_of_cons in Hx as [->|Hx]; [left | right; eauto].
  - right; eauto.
Qed.

Lemma select_map_filter {A} (f : A -> bool) (l : list A) :
  DF.select l (map f l) = List.filter f l.
Proof.
  induction l as [|x l IH]; simpl; [reflexivity |].
  destruct (f x); now rewrite IH.
Qed.

Lemma getmask_narrows d mask d' : DF.getmask d mask = Ok d' -> narrows d d'.
Proof.
  unfold DF.getmask. destruct (_ =? _)%nat; [| discriminate].
  intros [= <-]. split; [reflexivity |]. simpl.
  intros row. apply select_elem_of.
Qed.

Lemma getmask_notnull d i :
  DF.getmask d (DF.notnull (map (DF.cell_at i) (rows d)))
  = Ok (mkDF (columns d)
             (List.filter (fun row => DF.notnull_cell (DF.cell_at i row))
                          (rows d))).
Proof.
  unfold DF.getmask, DF.notnull. rewrite !length_map, Nat.eqb_refl.
  rewrite map_map. now rewrite select_map_filter.
Qed.

Section Evaluator.

Context {pd : Pandas}.

(** One comparison of [_filter_df]: skipped, or a mask applied. *)
Lemma comparison_narrows (c : bool) (body : res DataFrame) d d' :
  (forall d', body = Ok d' -> narrows d d') ->
  (if c then body else Ok d) = Ok d' -> narrows d d'.
Proof.
  intros Hbody. destruct c.
  - apply Hbody.
  - intros [= <-]. apply narrows_refl.
Qed.

Lemma mask1_narrows d col (op : Series -> res (list bool)) d' :
  (s ← DF.getitem d col; m ← op s; DF.getmask d m) = Ok d' ->
  narrows d d'.
Proof.
  intros Hb.
  apply res_bind_inv_ok in Hb as (s & _ & Hb).
  apply res_bind_inv_ok in Hb as (m & _ & Hb).
  eapply getmask_narrows, Hb.
Qed.

Lemma mask2_narrows d col (op1 op2 : Series -> res (list bool)) comb d' :
  (s1 ← DF.getitem d col; m1 ← op1 s1;
   s2 ← DF.getitem d col; m2 ← op2 s2;
   DF.getmask d (comb m1 m2)) = Ok d' ->
  narrows d d'.
Proof.
  intros Hb.
  apply res_bind_inv_ok in Hb as (s1 & _ & Hb).
  apply res_bind_inv_ok in Hb as (m1 & _ & Hb).
  apply res_bind_inv_ok in Hb as (s2 & _ & Hb).
  apply res_bind_inv_ok in Hb as (m2 & _ & Hb).
  eapply getmask_narrows, Hb.
Qed.

(** [_filter_df] first keeps the rows that are not null in the
    column, then only narrows. *)
Lemma filter_df_ok d col op val d' :
  _filter_df (col, op, val) d = Ok d' ->
  exists i,
    DF.index_of col (columns d) = Some i /\
    narrows (mkDF (columns d)
               (List.filter (fun row => DF.notnull_cell (DF.cell_at i row))
                            (rows d))) d'.
Proof.
  unfold _filter_df. intros Hf.
  apply res_bind_inv_ok in Hf as (s & Hs & Hf).
  unfold DF.getitem in Hs.
  destruct (DF.index_of col (columns d)) as [i|] eqn:Hi; [| discriminate].
  injection Hs as <-. rewrite getmask_notnull in Hf.
  exists i. split; [reflexivity |].
  apply res_bind_inv_ok in Hf as (d0 & [= <-] & Hf).
  apply res_bind_inv_ok in Hf as (d1 & H1 & Hf).
  apply res_bind_inv_ok in Hf as (d2 & H2 & Hf).
  apply res_bind_inv_ok in Hf as (d3 & H3 & Hf).
  apply res_bind_inv_ok in Hf as (d4 & H4 & Hf).
  apply res_bind_inv_ok in Hf as (d5 & H5 & Hf).
  injection Hf as <-.
  apply comparison_narrows in H1;
    [| intros ?; apply (mask1_narrows _ col (fun s => to_numeric_gt s val))].
  apply comparison_narrows in H2;
    [| intros ?; apply (mask1_narrows _ col (fun s => to_numeric_lt s val))].
  apply comparison_narrows in H3;
    [| intros ?; apply (mask1_narrows _ col (fun s => str_contains s _))].
  apply comparison_narrows in H4;
    [| intros ?; apply (mask2_narrows _ col (fun s => series_eq s val)
                          (fun s => series_eq s _) DF.mask_or)].
  apply comparison_narrows in H5;
    [| intros ?; apply (mask2_narrows _ col (fun s => series_ne s val)
                          (fun s => series_ne s _) DF.mask_and)].
  eauto using narrows_trans.
Qed.

(** C7: whatever the operator, a table that [_filter_df] returns for a
    predicate on [col] has the columns of the input, and each of its
    rows is a row of the input whose cell in [col] is not null. *)
Theorem filter_df_excludes_null d col op val d' :
  _filter_df (col, op, val) d = Ok d' ->
  exists i,
    DF.index_of col (columns d) = Some i /\
    columns d' = columns d /\
    forall row, row ∈ rows d' ->
      row ∈ rows d /\ DF.cell_at i row <> SNull.
Proof.
  intros Hf. apply filter_df_ok in Hf as (i & Hi & Hc & Hr).
  exists i. split; [exact Hi |]. split; [exact Hc |].
  intros row Hrow. apply Hr in Hrow. simpl in Hrow.
  apply list_elem_of_In, filter_In in Hrow as [Hin Hnn].
  split; [now apply list_elem_of_In |].
  intros Hnull. rewrite Hnull in Hnn. discriminate.
Qed.

(** C5, as amended: for an operator that in lower case is none of [>],
    [<], [like], [=], [!=], and a column the table has, [_filter_df]
    raises nothing and returns exactly the rows of the input that are
    not null in that column, in their order. *)
Theorem filter_df_unknown_operator d col op val i :
  PyStr.lower op ∉ [">"; "<"; "like"; "="; "!="] ->
  DF.index_of col (columns d) = Some i ->
  _filter_df (col, op, val) d
  = Ok (mkDF (columns d)
             (List.filter (fun row => DF.notnull_cell (DF.cell_at i row))
                          (rows d))).
Proof.
  intros Hop Hi. unfold _filter_df, DF.getitem. rewrite Hi.
  cbn [mbind res_mbind res_bind]. rewrite getmask_notnull.
  cbn [mbind res_mbind res_bind].
  repeat match goal with
  | |- context [String.eqb (PyStr.lower op) ?k] =>
      destruct (String.eqb_spec (PyStr.lower op) k) as [Heq|_];
      [exfalso; apply Hop; rewrite Heq; set_solver |]
  end.
  reflexivity.
Qed.

End Evaluator.

(** The operator [between] over the demo table, whose second row is null
    in column [a]. *)
Lemma filter_df_unknown_operator_witness :
  _filter_df (pd := Demo.pandas) ("a", "BETWEEN", SInt 1) Demo.table
  = Ok (mkDF ["a"; "b"] [[SInt 1; SStr "bob"]; [SStr "1"; SStr "bobby"]]).
Proof.
  apply (filter_df_unknown_operator (pd := Demo.pandas) Demo.table
           "a" "BETWEEN" (SInt 1) 0%nat).
  - change (PyStr.lower "BETWEEN") with "between".
    rewrite !not_elem_of_cons. repeat split; try discriminate.
    apply not_elem_of_nil.
  - reflexivity.
Defined.

(** C5 as stated fails: with the unknown operator [between], the row
    whose [a] is null does not pass through, and a column the table does
    not have raises [KeyError]. *)
Lemma filter_df_unknown_operator_drops_null :
  (PyStr.lower "between" ∉ [">"; "<"; "like"; "="; "!="]) /\
  (_filter_df (pd := Demo.pandas) ("a", "between", SInt 1) Demo.table)
  <> Ok Demo.table /\
  _filter_df (pd := Demo.pandas) ("zip", "between", SInt 1) Demo.table
  = Raise (KeyError "zip").
Proof.
  split_and!.
  - change (PyStr.lower "between") with "between".
    rewrite !not_elem_of_cons. repeat split; try discriminate.
    apply not_elem_of_nil.
  - vm_compute. discriminate.
  - reflexivity.
Qed.

(** The predicate [("a", "!=", 5)] over the demo table: the null row is
    gone although it differs from [5]. *)
Lemma filter_df_excludes_null_witness :
  exists i,
    DF.index_of "a" (columns Demo.table) = Some i /\
    columns (mkDF ["a"; "b"] [[SInt 1; SStr "bob"]; [SStr "1"; SStr "bobby"]])
    = columns Demo.table /\
    forall row,
      row ∈ rows (mkDF ["a"; "b"]
                    [[SInt 1; SStr "bob"]; [SStr "1"; SStr "bobby"]]) ->
      row ∈ rows Demo.table /\ DF.cell_at i row <> SNull.
Proof.
  apply (filter_df_excludes_null (pd := Demo.pandas) Demo.table
           "a" "!=" (SInt 5)).
  vm_compute. reflexivity.
Defined.

(** ** [drop_columns] *)

Section DropColumns.

Context {pd : Pandas}.
Variable parse : string -> res (gmap string json).
Variable format : gmap string json -> res string.
Variable binary_ops : gmap string string.
Variable _setup : option string -> res (DataFrame * gmap string string).

(** With no column to resolve nothing reads the column map, and
    [_internal_df] is used as it is. *)
Lemma drop_columns_nil_unmaterialized s :
  _internal_df s = None ->
  drop_columns parse format binary_ops _setup [] s = (Raise AttributeError, s).
Proof.
  intros Hd. unfold drop_columns, bind, get, ret. simpl. now rewrite Hd.
Qed.

End DropColumns.

(** C6 on a query-backed source: with rows not yet materialized and a
    backend that answers the probe, [drop_columns(["a"])] resolves the
    name through the column map and then raises [AttributeError] on the
    table that is not there; the rows stay unmaterialized.  The same call
    on a source that is not query-backed materializes and drops. *)
Theorem drop_columns_unmaterialized_sql :
  let drop s :=
    drop_columns (pd := Demo.pandas) Demo.parse Demo.format Demo.binary_ops
                 (Demo._setup Demo.table) ["a"] s in
  _internal_df sql_source = None /\
  (drop sql_source).1 = Raise AttributeError /\
  _internal_df (drop sql_source).2 = None /\
  (drop plain_source).1 = Ok tt /\
  _internal_df (drop plain_source).2
  = Some (mkDF ["b"] [[SStr "bob"]; [SStr "alice"]; [SStr "bobby"]]).
Proof. vm_compute. repeat split. Qed.

(** ** [set_subtypes] *)

Lemma py_in_present col cm : py_in col (Some cm) = Ok (present col cm).
Proof. destruct cm; reflexivity. Qed.

Lemma find_before {A} (f : A -> bool) m p :
  List.find f m = Some p ->
  exists post, m = (before f m ++ p :: post)%list /\ f p = true.
Proof.
  induction m as [|q m IH]; simpl; [discriminate |].
  destruct (f q) eqn:Hq.
  - intros [= ->]. exists m. split; [reflexivity | exact Hq].
  - intros Hfind. destruct (IH Hfind) as (post & Hm & Hp).
    exists post. split; [simpl; congruence | exact Hp].
Qed.

Lemma before_clean {A} (f : A -> bool) m :
  Forall (fun q => f q = false) (before f m).
Proof.
  induction m as [|q m IH]; simpl; [constructor |].
  destruct (f q) eqn:Hq; [constructor | now constructor].
Qed.

Lemma find_clean {A} (f : A -> bool) m :
  Forall (fun q => f q = false) m -> List.find f m = None /\ before f m = m.
Proof.
  induction 1 as [|q m Hq _ [IH1 IH2]]; simpl; [split; reflexivity |].
  rewrite Hq. split; congruence.
Qed.

Lemma find_elem_of {A} (f : A -> bool) m x :
  x ∈ m -> f x = true -> exists p, List.find f m = Some p.
Proof.
  induction m as [|q m IH]; intros Hx Hf.
  - now apply elem_of_nil in Hx.
  - simpl. destruct (f q) eqn:Hq; [eauto |].
    apply elem_of_cons in Hx as [->|Hx]; [congruence | eauto].
Qed.

Lemma find_Some_elem_of {A} (f : A -> bool) m p :
  List.find f m = Some p -> p ∈ m /\ f p = true.
Proof.
  intros Hfind. apply find_some in Hfind as [Hin Hf].
  split; [now apply list_elem_of_In | exact Hf].
Qed.

Section Subtypes.

Context {pd : Pandas}.
Variable parse : string -> res (gmap string json).
Variable format : gmap string json -> res string.
Variable binary_ops : gmap string string.
Variable DATA_TYPES_SUBTYPES : list (string * list string).
Variable _setup : option string -> res (DataFrame * gmap string string).

Abbreviation _col_map := (_col_map parse format binary_ops _setup).
Abbreviation set_subtype :=
  (set_subtype parse format binary_ops DATA_TYPES_SUBTYPES _setup).
Abbreviation set_subtypes :=
  (set_subtypes parse format binary_ops DATA_TYPES_SUBTYPES _setup).
Abbreviation type_of_subtype := (type_of_subtype DATA_TYPES_SUBTYPES).
Abbreviation reads_col_map := (reads_col_map parse format binary_ops _setup).
Abbreviation offending := (offending DATA_TYPES_SUBTYPES).
Abbreviation declare := (declare DATA_TYPES_SUBTYPES).

Lemma _col_map_cached s cm :
  _internal_col_map s = Some cm -> _col_map s = (Ok (Some cm), s).
Proof.
  intros Hcm. unfold _col_map, bind, get, ret.
  rewrite Hcm. simpl. now rewrite Hcm.
Qed.

Lemma _col_map_result s cmo s1 :
  _col_map s = (Ok cmo, s1) -> _internal_col_map s1 = cmo /\ cmo <> None.
Proof.
  unfold _col_map. unfold bind at 1, get at 1.
  destruct (_internal_col_map s) as [cm|] eqn:Hcm.
  - unfold bind, get, ret. simpl. intros [= <- <-].
    rewrite Hcm. split; [reflexivity | discriminate].
  - intros Hrun. apply bind_inv_ok in Hrun as ([] & s2 & Hset & Hget).
    unfold bind, get, ret in Hget. injection Hget as <- <-.
    split; [reflexivity |].
    destruct (is_sql s).
    + apply bind_inv_ok in Hset as (r & s3 & _ & Hset).
      apply bind_inv_ok in Hset as (cm & s4 & _ & Hset).
      unfold modify in Hset. injection Hset as <-. simpl. discriminate.
    + apply bind_inv_ok in Hset as (r & s3 & _ & Hset).
      unfold modify in Hset. injection Hset as <-. simpl. discriminate.
Qed.

Lemma _col_map_declared s : declared (_col_map s).2 = declared s.
Proof.
  apply (_col_map_preserves parse format binary_ops _setup
           (fun s' => declared s' = declared s)); [| | reflexivity].
  - split; intros; assumption.
  - intros; assumption.
Qed.

(** One turn of the loop, once the column map reads as [cm]. *)
Lemma set_subtype_run s cm col subtype :
  reads_col_map s cm ->
  exists s1,
    _internal_col_map s1 = Some cm /\ declared s1 = declared s /\
    set_subtype (col, subtype) s =
    if present col cm then
      match type_of_subtype subtype with
      | Some type_ =>
          (Ok tt, set_declared (<[col := type_]> (data_types s1))
                               (<[col := subtype]> (data_subtypes s1)) s1)
      | None => (Raise (InvalidSubtype subtype), s1)
      end
    else (Ok tt, add_log (ColumnNotPresent col subtype) s1).
Proof.
  unfold reads_col_map. intros Hread.
  pose proof (_col_map_declared s) as Hdecl.
  destruct (_col_map s) as [r s1] eqn:Hrun. simpl in Hread, Hdecl. subst r.
  destruct (_col_map_result _ _ _ Hrun) as [Hcm _].
  exists s1. split; [exact Hcm |]. split; [exact Hdecl |].
  unfold set_subtype. rewrite (bind_ok _ _ _ _ _ Hrun).
  rewrite py_in_present. unfold bind, lift.
  destruct (present col cm); simpl; [| reflexivity].
  destruct (type_of_subtype subtype); reflexivity.
Qed.

Lemma reads_cached s cm : _internal_col_map s = Some cm -> reads_col_map s cm.
Proof. intros Hcm. unfold reads_col_map. now rewrite (_col_map_cached s cm). Qed.

(** The whole loop: it raises for the first offending pair, and the
    declarations are those of the pairs before it. *)
Lemma set_subtypes_run cm m : forall s,
  reads_col_map s cm ->
  (set_subtypes m s).1 =
    match List.find (offending cm) m with
    | Some p => Raise (InvalidSubtype p.2)
    | None => Ok tt
    end /\
  declared (set_subtypes m s).2
  = foldl (declare cm) (declared s) (before (offending cm) m).
Proof.
  induction m as [|[col subtype] m IH]; intros s Hread.
  - split; reflexivity.
  - destruct (set_subtype_run s cm col subtype Hread)
      as (s1 & Hcm & Hdecl & Hstep).
    assert (Hoff : offending cm (col, subtype)
                   = present col cm
                     && bool_decide (type_of_subtype subtype = None))
      by reflexivity.
    unfold set_subtypes in *. rewrite py_for_cons, Hstep.
    simpl List.find. simpl before. rewrite Hoff.
    destruct (present col cm) eqn:Hp; simpl andb.
    + destruct (type_of_subtype subtype) as [ty|] eqn:Hts.
      * rewrite bool_decide_eq_false_2 by discriminate. simpl foldl.
        replace (declare cm (declared s) (col, subtype))
          with (declared (set_declared (<[col := ty]> (data_types s1))
                            (<[col := subtype]> (data_subtypes s1)) s1)).
        -- apply IH. now apply reads_cached.
        -- unfold declare. simpl. rewrite Hp, Hts.
           injection Hdecl as -> ->. reflexivity.
      * rewrite bool_decide_eq_true_2 by reflexivity.
        split; [reflexivity | exact Hdecl].
    + simpl foldl.
      replace (declare cm (declared s) (col, subtype))
        with (declared (add_log (ColumnNotPresent col subtype) s1)).
      * apply IH. now apply reads_cached.
      * unfold declare. simpl. rewrite Hp. exact Hdecl.
Qed.

(** A pair whose column is not in the map leaves the declarations
    alone; so does a pair on another column. *)
Lemma declare_other cm l : forall d k,
  (forall v, (k, v) ∈ l -> present k cm = false) ->
  (foldl (declare cm) d l).1 !! k = d.1 !! k /\
  (foldl (declare cm) d l).2 !! k = d.2 !! k.
Proof.
  induction l as [|[c st] l IH]; intros d k Hk; simpl; [split; reflexivity |].
  destruct (IH (declare cm d (c, st)) k) as [IH1 IH2].
  { intros v Hv. apply (Hk v). now right. }
  rewrite IH1, IH2. unfold declare. simpl.
  destruct (present c cm) eqn:Hc; [| split; reflexivity].
  destruct (type_of_subtype st); [| split; reflexivity]. simpl.
  assert (c <> k).
  { intros ->. specialize (Hk st (list_elem_of_here _ _)). congruence. }
  rewrite !lookup_insert_ne by assumption. split; reflexivity.
Qed.

(** A valid pair on a column of the map is recorded, and stays so
    when no later pair names the column. *)
Lemma declare_recorded cm l : forall d k v,
  NoDup l.*1 ->
  Forall (fun q => offending cm q = false) l ->
  (k, v) ∈ l -> present k cm = true ->
  (foldl (declare cm) d l).2 !! k = Some v /\
  (foldl (declare cm) d l).1 !! k = type_of_subtype v.
Proof.
  induction l as [|[c st] l IH]; intros d k v Hnd Hall Hin Hk.
  - now apply elem_of_nil in Hin.
  - rewrite fmap_cons in Hnd. apply NoDup_cons in Hnd as [Hc Hnd].
    apply Forall_cons in Hall as [Hoff Hall].
    apply elem_of_cons in Hin as [[= <- <-]|Hin]; simpl.
    + destruct (declare_other cm l (declare cm d (k, v)) k) as [H1 H2].
      { intros v' Hv'. exfalso. apply Hc.
        apply list_elem_of_fmap. now exists (k, v'). }
      rewrite H1, H2. unfold declare. simpl. rewrite Hk.
      unfold offending in Hoff. simpl in Hoff. rewrite Hk in Hoff.
      simpl in Hoff. apply bool_decide_eq_false in Hoff.
      destruct (type_of_subtype v) as [ty|]; [| contradiction]. simpl.
      rewrite !lookup_insert_eq. split; reflexivity.
    + now apply IH.
Qed.

(** C8: when the mapping has a pair whose column is in the column map
    and whose subtype is in no category of the registry, [set_subtypes]
    raises [InvalidSubtype] carrying the subtype of the first such pair
    in iteration order (the given one, when it is the only such pair).
    The declarations it leaves are those of the
    pairs before that one: each valid earlier pair on a column of the
    map is recorded as given, and what earlier calls recorded for the
    other columns is as it was. *)
Theorem set_subtypes_invalid_subtype s cm m col subtype :
  reads_col_map s cm ->
  NoDup m.*1 ->
  (col, subtype) ∈ m ->
  present col cm = true ->
  type_of_subtype subtype = None ->
  exists pre c st post,
    m = (pre ++ (c, st) :: post)%list /\
    Forall (fun q => offending cm q = false) pre /\
    present c cm = true /\ type_of_subtype st = None /\
    ((forall q, q ∈ m -> offending cm q = true -> q = (col, subtype)) ->
     st = subtype) /\
    (set_subtypes m s).1 = Raise (InvalidSubtype st) /\
    (set_subtypes pre s).1 = Ok tt /\
    declared (set_subtypes m s).2 = declared (set_subtypes pre s).2 /\
    (forall k v, (k, v) ∈ pre -> present k cm = true ->
       data_subtypes (set_subtypes m s).2 !! k = Some v /\
       data_types (set_subtypes m s).2 !! k = type_of_subtype v) /\
    (forall k, k ∉ pre.*1 ->
       data_subtypes (set_subtypes m s).2 !! k = data_subtypes s !! k /\
       data_types (set_subtypes m s).2 !! k = data_types s !! k).
Proof.
  intros Hread Hnd Hin Hp Hty.
  destruct (find_elem_of (offending cm) m (col, subtype) Hin) as [[c st] Hfind].
  { unfold offending. simpl. rewrite Hp, Hty. reflexivity. }
  destruct (find_before _ _ _ Hfind) as (post & Hm & Hoff).
  pose proof (before_clean (offending cm) m) as Hclean.
  destruct (set_subtypes_run cm m s Hread) as [Hres Hdecl].
  destruct (set_subtypes_run cm (before (offending cm) m) s Hread)
    as [Hres' Hdecl'].
  destruct (find_clean _ _ Hclean) as [Hnone Hsame].
  rewrite Hnone in Hres'. rewrite Hsame in Hdecl'. rewrite Hfind in Hres.
  unfold offending in Hoff. simpl in Hoff.
  apply andb_prop in Hoff as [Hpc Htc]. apply bool_decide_eq_true in Htc.
  assert (Hnd' : NoDup (before (offending cm) m).*1).
  { rewrite Hm, fmap_app in Hnd. now apply NoDup_app in Hnd as [Hnd _]. }
  exists (before (offending cm) m), c, st, post.
  assert (Hsub : forall s', data_subtypes s' = (declared s').2) by reflexivity.
  assert (Htyp : forall s', data_types s' = (declared s').1) by reflexivity.
  split_and!; try assumption.
  - intros Honly.
    assert (Hq : (c, st) = (col, subtype)); [| congruence].
    apply Honly.
    + rewrite Hm. apply elem_of_app. right. left.
    + unfold offending. simpl. rewrite Hpc, Htc. reflexivity.
  - congruence.
  - intros k v Hkv Hk. rewrite Hsub, Htyp, Hdecl.
    now apply (declare_recorded cm _ (declared s) k v Hnd' Hclean).
  - intros k Hk. rewrite !Hsub, !Htyp, Hdecl.
    destruct (declare_other cm (before (offending cm) m) (declared s) k)
      as [H1 H2]; [| split; assumption].
    intros v Hv. exfalso. apply Hk, list_elem_of_fmap. now exists (k, v).
Qed.

(** Reading the column map logs nothing. *)
Lemma _col_map_log s : log (_col_map s).2 = log s.
Proof.
  unfold _col_map, filter, try_except, pushdown, fallback, df.
  unfold bind, get, lift, modify, ret, raise. simpl.
  repeat case_match; simplify_eq/=; reflexivity.
Qed.

(** One turn of the loop, with the state it starts from. *)
Lemma set_subtype_run_at s cm col subtype :
  reads_col_map s cm ->
  _internal_col_map (_col_map s).2 = Some cm /\
  declared (_col_map s).2 = declared s /\
  log (_col_map s).2 = log s /\
  set_subtype (col, subtype) s =
  if present col cm then
    match type_of_subtype subtype with
    | Some type_ =>
        (Ok tt, set_declared (<[col := type_]> (data_types (_col_map s).2))
                             (<[col := subtype]> (data_subtypes (_col_map s).2))
                             (_col_map s).2)
    | None => (Raise (InvalidSubtype subtype), (_col_map s).2)
    end
  else (Ok tt, add_log (ColumnNotPresent col subtype) (_col_map s).2).
Proof.
  unfold reads_col_map. intros Hread.
  pose proof (_col_map_declared s) as Hdecl.
  pose proof (_col_map_log s) as Hlog.
  destruct (_col_map s) as [r s1] eqn:Hrun. simpl in *. subst r.
  destruct (_col_map_result _ _ _ Hrun) as [Hcm _].
  split_and!; try assumption.
  unfold set_subtype. rewrite (bind_ok _ _ _ _ _ Hrun).
  rewrite py_in_present. unfold bind, lift.
  destruct (present col cm); simpl; [| reflexivity].
  destruct (type_of_subtype subtype); reflexivity.
Qed.

(** The warnings of the whole loop: one for each pair on a column
    outside the map that comes before the first offending pair. *)
Lemma set_subtypes_log cm m : forall s,
  reads_col_map s cm ->
  log (set_subtypes m s).2
  = (log s ++ absent_warnings cm (before (offending cm) m))%list.
Proof.
  induction m as [|[col subtype] m IH]; intros s Hread.
  - simpl. now rewrite app_nil_r.
  - destruct (set_subtype_run_at s cm col subtype Hread)
      as (Hcm & _ & Hlog & Hstep).
    assert (Hoff : offending cm (col, subtype)
                   = present col cm
                     && bool_decide (type_of_subtype subtype = None))
      by reflexivity.
    unfold set_subtypes in *. rewrite py_for_cons, Hstep.
    simpl before. rewrite Hoff. unfold absent_warnings in *.
    destruct (present col cm) eqn:Hp; simpl andb.
    + destruct (type_of_subtype subtype) as [ty|] eqn:Hts.
      * rewrite bool_decide_eq_false_2 by discriminate.
        simpl List.filter. rewrite Hp. simpl negb. cbv iota.
        rewrite IH by now apply reads_cached. simpl. now rewrite Hlog.
      * rewrite bool_decide_eq_true_2 by reflexivity. simpl.
        now rewrite app_nil_r.
    + simpl List.filter. rewrite Hp. simpl negb. cbv iota.
      rewrite IH by now apply reads_cached. simpl.
      rewrite Hlog, <- app_assoc. reflexivity.
Qed.

(** A pair that is not offending does not move the first offending
    pair, and is one more pair before it. *)
Lemma find_skip {A} (f : A -> bool) pre p post :
  f p = false ->
  List.find f (pre ++ p :: post) = List.find f (pre ++ post).
Proof.
  intros Hp. induction pre as [|q pre IH]; simpl.
  - now rewrite Hp.
  - destruct (f q); [reflexivity | exact IH].
Qed.

Lemma declare_skip cm pre p post : forall d,
  present p.1 cm = false ->
  foldl (declare cm) d (before (offending cm) (pre ++ p :: post))
  = foldl (declare cm) d (before (offending cm) (pre ++ post)).
Proof.
  intros d Hp. revert d. induction pre as [|q pre IH]; intros d; simpl.
  - unfold offending at 1. rewrite Hp. simpl.
    unfold declare at 2. now rewrite Hp.
  - destruct (offending cm q); [reflexivity |]. simpl. apply IH.
Qed.

Lemma before_reached {A} (f : A -> bool) pre p post :
  Forall (fun q => f q = false) pre -> f p = false ->
  p ∈ before f (pre ++ p :: post).
Proof.
  intros Hpre Hp. induction Hpre as [|q pre Hq _ IH]; simpl.
  - rewrite Hp. left.
  - rewrite Hq. now right.
Qed.

(** C9: a pair of the mapping whose column is not in the column map is
    skipped with a warning.  Its turn of the loop raises nothing, logs
    the warning and changes no declaration.  The call does not raise on
    account of it: it returns normally exactly when every pair on a
    column of the map has a subtype of some category, and its result and
    the declarations it leaves are those of the call on the mapping
    without the pair.  The warnings the call adds to the log are those of
    the pairs on columns outside the map, in order, up to the first pair
    it raises for; the warning of this pair is among them whenever no
    pair before it makes the call raise.  The declared subtype and type
    of the column are as they were. *)
Theorem set_subtypes_absent_column s cm m col subtype :
  reads_col_map s cm ->
  (col, subtype) ∈ m ->
  present col cm = false ->
  (exists s1,
     set_subtype (col, subtype) s
     = (Ok tt, add_log (ColumnNotPresent col subtype) s1) /\
     declared s1 = declared s /\ log s1 = log s) /\
  ((set_subtypes m s).1 = Ok tt <->
   forall c st, (c, st) ∈ m -> present c cm = true ->
                type_of_subtype st <> None) /\
  (forall pre post,
     m = (pre ++ (col, subtype) :: post)%list ->
     (set_subtypes m s).1 = (set_subtypes (pre ++ post) s).1 /\
     declared (set_subtypes m s).2
     = declared (set_subtypes (pre ++ post) s).2) /\
  log (set_subtypes m s).2
  = (log s ++ absent_warnings cm (before (offending cm) m))%list /\
  (forall pre post,
     m = (pre ++ (col, subtype) :: post)%list ->
     (forall c st, (c, st) ∈ pre -> present c cm = true ->
                   type_of_subtype st <> None) ->
     ColumnNotPresent col subtype
       ∈ absent_warnings cm (before (offending cm) m)) /\
  data_subtypes (set_subtypes m s).2 !! col = data_subtypes s !! col /\
  data_types (set_subtypes m s).2 !! col = data_types s !! col.
Proof.
  intros Hread Hin Hp.
  assert (Hclean : forall l,
            (forall c st, (c, st) ∈ l -> present c cm = true ->
                          type_of_subtype st <> None) <->
            Forall (fun p => offending cm p = false) l).
  { intros l. rewrite Forall_forall. split.
    - intros H [c st] Hl. unfold offending. simpl.
      destruct (present c cm) eqn:Hc; [| reflexivity]. simpl.
      apply bool_decide_eq_false. now apply (H c st).
    - intros H c st Hl Hc Hty. specialize (H (c, st) Hl).
      unfold offending in H. simpl in H. rewrite Hc, Hty in H.
      discriminate. }
  assert (Hoff : offending cm (col, subtype) = false).
  { unfold offending. simpl. now rewrite Hp. }
  split_and!.
  - destruct (set_subtype_run_at s cm col subtype Hread)
      as (_ & Hdecl & Hlog & Hstep).
    rewrite Hp in Hstep. eauto.
  - rewrite Hclean.
    destruct (set_subtypes_run cm m s Hread) as [-> _]. split.
    + intros Hres. apply Forall_forall. intros p Hpm.
      destruct (offending cm p) eqn:Hop; [| reflexivity].
      destruct (find_elem_of (offending cm) m p Hpm Hop) as [p' Hfind].
      rewrite Hfind in Hres. discriminate.
    + intros Hall. now destruct (find_clean _ _ Hall) as [-> _].
  - intros pre post ->.
    destruct (set_subtypes_run cm (pre ++ (col, subtype) :: post) s Hread)
      as [-> ->].
    destruct (set_subtypes_run cm (pre ++ post) s Hread) as [-> ->].
    rewrite (find_skip _ pre (col, subtype) post Hoff).
    rewrite (declare_skip cm pre (col, subtype) post _ Hp).
    split; reflexivity.
  - now apply set_subtypes_log.
  - intros pre post -> Hpre. apply Hclean in Hpre.
    unfold absent_warnings. apply list_elem_of_fmap.
    exists (col, subtype). split; [reflexivity |].
    apply list_elem_of_In, filter_In. split.
    + apply list_elem_of_In. now apply before_reached.
    + simpl. now rewrite Hp.
  - destruct (set_subtypes_run cm m s Hread) as [_ Hdecl].
    destruct (declare_other cm (before (offending cm) m) (declared s) col)
      as [_ H2]; [intros; exact Hp |].
    now rewrite <- Hdecl in H2.
  - destruct (set_subtypes_run cm m s Hread) as [_ Hdecl].
    destruct (declare_other cm (before (offending cm) m) (declared s) col)
      as [H1 _]; [intros; exact Hp |].
    now rewrite <- Hdecl in H1.
Qed.

End Subtypes.

(** C10: the membership test comes first.  For a pair whose column is
    not in the column map the turn of the loop returns normally whatever
    the subtype, and it is the same computation under every registry: the
    registry is not consulted.  When a call does raise [InvalidSubtype],
    the subtype it carries belongs to a pair whose column is in the column
    map. *)
Theorem absent_column_skips_validation {pd : Pandas}
    parse format binary_ops registry _setup s cm col subtype :
  reads_col_map parse format binary_ops _setup s cm ->
  present col cm = false ->
  (set_subtype parse format binary_ops registry _setup (col, subtype) s).1
    = Ok tt /\
  (forall registry',
     set_subtype parse format binary_ops registry' _setup (col, subtype) s
     = set_subtype parse format binary_ops registry _setup (col, subtype) s) /\
  (forall m st,
     (set_subtypes parse format binary_ops registry _setup m s).1
       = Raise (InvalidSubtype st) ->
     exists c, (c, st) ∈ m /\ present c cm = true /\
               type_of_subtype registry st = None).
Proof.
  intros Hread Hp. split_and!.
  - destruct (set_subtype_run parse format binary_ops registry _setup
                s cm col subtype Hread) as (s1 & _ & _ & Hstep).
    rewrite Hp in Hstep. now rewrite Hstep.
  - intros registry'. unfold set_subtype. unfold reads_col_map in Hread.
    unfold bind.
    destruct (_col_map parse format binary_ops _setup s) as [[cmo|e] s1];
      [| reflexivity].
    simpl in Hread. injection Hread as ->.
    rewrite py_in_present, Hp. reflexivity.
  - intros m st Hraise.
    destruct (set_subtypes_run parse format binary_ops registry _setup
                cm m s Hread) as [Hres _].
    rewrite Hres in Hraise.
    destruct (List.find (offending registry cm) m) as [[c st']|] eqn:Hfind;
      [| discriminate].
    injection Hraise as <-.
    apply find_Some_elem_of in Hfind as [Hin Hoff].
    unfold offending in Hoff. simpl in Hoff.
    apply andb_prop in Hoff as [Hpc Htc]. apply bool_decide_eq_true in Htc.
    exists c. auto.
Qed.

(** [{"b": "Short Text", "a": "not_a_real_subtype"}] on the demo table:
    [b] is recorded, then the call raises for [a]. *)
Lemma set_subtypes_invalid_subtype_witness :
  let call m :=
    set_subtypes (pd := Demo.pandas) Demo.parse Demo.format Demo.binary_ops
                 Demo.DATA_TYPES_SUBTYPES (Demo._setup Demo.table) m
                 plain_source in
  let m := [("b", "Short Text"); ("a", "not_a_real_subtype")] in
  exists pre c st post,
    m = (pre ++ (c, st) :: post)%list /\
    Forall (fun q => offending Demo.DATA_TYPES_SUBTYPES demo_col_map q = false)
           pre /\
    present c demo_col_map = true /\
    type_of_subtype Demo.DATA_TYPES_SUBTYPES st = None /\
    ((forall q, q ∈ m ->
        offending Demo.DATA_TYPES_SUBTYPES demo_col_map q = true ->
        q = ("a", "not_a_real_subtype")) ->
     st = "not_a_real_subtype") /\
    (call m).1 = Raise (InvalidSubtype st) /\
    (call pre).1 = Ok tt /\
    declared (call m).2 = declared (call pre).2 /\
    (forall k v, (k, v) ∈ pre -> present k demo_col_map = true ->
       data_subtypes (call m).2 !! k = Some v /\
       data_types (call m).2 !! k
       = type_of_subtype Demo.DATA_TYPES_SUBTYPES v) /\
    (forall k, k ∉ pre.*1 ->
       data_subtypes (call m).2 !! k = data_subtypes plain_source !! k /\
       data_types (call m).2 !! k = data_types plain_source !! k).
Proof.
  apply (set_subtypes_invalid_subtype (pd := Demo.pandas) Demo.parse
           Demo.format Demo.binary_ops Demo.DATA_TYPES_SUBTYPES
           (Demo._setup Demo.table) plain_source demo_col_map
           [("b", "Short Text"); ("a", "not_a_real_subtype")]
           "a" "not_a_real_subtype").
  - vm_compute. reflexivity.
  - compute_done.
  - compute_done.
  - reflexivity.
  - reflexivity.
Defined.

(** [{"b": "Short Text", "x": "Int"}] on the demo table, which has no
    column [x]: the call returns, and the one warning it logs is that
    for [x]. *)
Lemma set_subtypes_absent_column_witness :
  let step :=
    set_subtype (pd := Demo.pandas) Demo.parse Demo.format Demo.binary_ops
                Demo.DATA_TYPES_SUBTYPES (Demo._setup Demo.table) in
  let call m :=
    set_subtypes (pd := Demo.pandas) Demo.parse Demo.format Demo.binary_ops
                 Demo.DATA_TYPES_SUBTYPES (Demo._setup Demo.table) m
                 plain_source in
  let m := [("b", "Short Text"); ("x", "Int")] in
  ((call m).1 = Ok tt /\
   log (call m).2 = [ColumnNotPresent "x" "Int"] /\
   data_subtypes (call m).2 = <["b" := "Short Text"]> ∅) /\
  (exists s1,
     step ("x", "Int") plain_source
     = (Ok tt, add_log (ColumnNotPresent "x" "Int") s1) /\
     declared s1 = declared plain_source /\ log s1 = log plain_source) /\
  ((call m).1 = Ok tt <->
   forall c st, (c, st) ∈ m -> present c demo_col_map = true ->
                type_of_subtype Demo.DATA_TYPES_SUBTYPES st <> None) /\
  (forall pre post,
     m = (pre ++ ("x", "Int") :: post)%list ->
     (call m).1 = (call (pre ++ post)%list).1 /\
     declared (call m).2 = declared (call (pre ++ post)%list).2) /\
  log (call m).2
  = (log plain_source
     ++ absent_warnings demo_col_map
          (before (offending Demo.DATA_TYPES_SUBTYPES demo_col_map) m))%list /\
  (forall pre post,
     m = (pre ++ ("x", "Int") :: post)%list ->
     (forall c st, (c, st) ∈ pre -> present c demo_col_map = true ->
                   type_of_subtype Demo.DATA_TYPES_SUBTYPES st <> None) ->
     ColumnNotPresent "x" "Int"
       ∈ absent_warnings demo_col_map
           (before (offending Demo.DATA_TYPES_SUBTYPES demo_col_map) m)) /\
  data_subtypes (call m).2 !! "x" = data_subtypes plain_source !! "x" /\
  data_types (call m).2 !! "x" = data_types plain_source !! "x".
Proof.
  split; [vm_compute; repeat split |].
  apply (set_subtypes_absent_column (pd := Demo.pandas) Demo.parse
           Demo.format Demo.binary_ops Demo.DATA_TYPES_SUBTYPES
           (Demo._setup Demo.table) plain_source demo_col_map
           [("b", "Short Text"); ("x", "Int")] "x" "Int").
  - vm_compute. reflexivity.
  - compute_done.
  - reflexivity.
Defined.

(** [{"x": "not_a_real_subtype"}] on the demo table: no column [x], and
    no exception for the subtype. *)
Lemma absent_column_skips_validation_witness :
  let step registry :=
    set_subtype (pd := Demo.pandas) Demo.parse Demo.format Demo.binary_ops
                registry (Demo._setup Demo.table) in
  type_of_subtype Demo.DATA_TYPES_SUBTYPES "not_a_real_subtype" = None /\
  (step Demo.DATA_TYPES_SUBTYPES ("x", "not_a_real_subtype") plain_source).1
    = Ok tt /\
  (forall registry',
     step registry' ("x", "not_a_real_subtype") plain_source
     = step Demo.DATA_TYPES_SUBTYPES ("x", "not_a_real_subtype") plain_source) /\
  (forall m st,
     (set_subtypes (pd := Demo.pandas) Demo.parse Demo.format Demo.binary_ops
                   Demo.DATA_TYPES_SUBTYPES (Demo._setup Demo.table) m
                   plain_source).1
       = Raise (InvalidSubtype st) ->
     exists c, (c, st) ∈ m /\ present c demo_col_map = true /\
               type_of_subtype Demo.DATA_TYPES_SUBTYPES st = None).
Proof.
  split; [reflexivity |].
  apply (absent_column_skips_validation (pd := Demo.pandas) Demo.parse
           Demo.format Demo.binary_ops Demo.DATA_TYPES_SUBTYPES
           (Demo._setup Demo.table) plain_source demo_col_map
           "x" "not_a_real_subtype").
  - vm_compute. reflexivity.
  - reflexivity.
Defined.

(** ** [drop_columns] on a source that is not query-backed *)

Section DropColumnsPlain.

Context {pd : Pandas}.
Variable parse : string -> res (gmap string json).
Variable format : gmap string json -> res string.
Variable binary_ops : gmap string string.
Variable _setup : option string -> res (DataFrame * gmap string string).

Abbreviation _col_map := (_col_map parse format binary_ops _setup).
Abbreviation resolve_column := (resolve_column parse format binary_ops _setup).
Abbreviation drop_columns := (drop_columns parse format binary_ops _setup).

(** With the map cached, the loop resolves each name and touches
    nothing. *)
Lemma resolve_columns_cached m l : forall acc s,
  _internal_col_map s = Some (ColMap m) ->
  py_fold resolve_column l acc s = (Ok (acc ++ map (resolve m) l)%list, s).
Proof.
  induction l as [|col l IH]; intros acc s Hcm; simpl.
  - unfold ret. now rewrite app_nil_r.
  - assert (Hstep : resolve_column acc col s
                    = (Ok (acc ++ [resolve m col])%list, s)).
    { unfold resolve_column.
      rewrite (bind_ok _ _ _ _ _
                 (_col_map_cached parse format binary_ops _setup s _ Hcm)).
      unfold lift, bind at 1. simpl py_in. unfold resolve.
      destruct (m !! col) as [v|] eqn:Hv; simpl.
      - rewrite (bind_ok _ _ _ _ _
                   (_col_map_cached parse format binary_ops _setup s _ Hcm)).
        unfold bind, lift, ret. simpl. now rewrite Hv.
      - reflexivity. }
    rewrite (bind_ok _ _ _ _ _ Hstep), (IH _ s Hcm).
    now rewrite <- app_assoc.
Qed.

(** The first read of the column map materializes the pair. *)
Lemma _col_map_plain_first s d m :
  is_sql s = false -> _internal_col_map s = None ->
  _setup None = Ok (d, m) ->
  _col_map s
  = (Ok (Some (ColMap m)),
     set_internal_col_map (Some (ColMap m)) (set_internal_df (Some d) s)).
Proof.
  intros Hsql Hcm Hsetup. unfold _col_map, bind, get, lift, modify, ret.
  rewrite Hcm, Hsql, Hsetup. reflexivity.
Qed.

(** On a source that is not query-backed and not yet materialized, with
    at least one column named, [drop_columns] materializes the pair and
    drops the resolved columns from the table; it raises [KeyError] when
    a resolved name is no column. *)
Lemma drop_columns_plain s d m col l :
  is_sql s = false -> _internal_col_map s = None ->
  _setup None = Ok (d, m) ->
  let s1 := set_internal_col_map (Some (ColMap m))
              (set_internal_df (Some d) s) in
  drop_columns (col :: l) s =
  match DF.drop (map (resolve m) (col :: l)) d with
  | Ok d' => (Ok tt, set_internal_df (Some d') s1)
  | Raise e => (Raise e, s1)
  end.
Proof.
  intros Hsql Hcm Hsetup s1. unfold drop_columns.
  assert (Hfold : py_fold resolve_column (col :: l) [] s
                  = (Ok (map (resolve m) (col :: l)), s1)).
  { simpl py_fold.
    assert (Hstep : resolve_column [] col s = (Ok [resolve m col], s1)).
    { unfold resolve_column.
      rewrite (bind_ok _ _ _ _ _ (_col_map_plain_first s d m Hsql Hcm Hsetup)).
      fold s1. unfold lift, bind at 1. simpl py_in. unfold resolve.
      destruct (m !! col) as [v|] eqn:Hv; simpl.
      - rewrite (bind_ok _ _ _ _ _
                   (_col_map_cached parse format binary_ops _setup s1
                      (ColMap m) eq_refl)).
        unfold bind, lift, ret. simpl. now rewrite Hv.
      - reflexivity. }
    rewrite (bind_ok _ _ _ _ _ Hstep).
    now rewrite (resolve_columns_cached m l [resolve m col] s1 eq_refl). }
  rewrite (bind_ok _ _ _ _ _ Hfold).
  unfold bind, get, lift, modify. simpl.
  destruct (DF.drop _ d); reflexivity.
Qed.

End DropColumnsPlain.

(** ** [drop_columns] on a query-backed source *)

Section DropColumnsSql.

Context {pd : Pandas}.
Variable parse : string -> res (gmap string json).
Variable format : gmap string json -> res string.
Variable binary_ops : gmap string string.
Variable _setup : option string -> res (DataFrame * gmap string string).

Abbreviation filter := (filter parse format binary_ops _setup).
Abbreviation _col_map := (_col_map parse format binary_ops _setup).
Abbreviation resolve_column := (resolve_column parse format binary_ops _setup).
Abbreviation drop_columns := (drop_columns parse format binary_ops _setup).

Variables (s : DataSource) (q q' : string) (pq : gmap string json).
Variables (d : DataFrame) (m : gmap string string).
Hypothesis Hsql : is_sql s = true.
Hypothesis Hquery : query s = Some q.
Hypothesis Hparse : parse q = Ok pq.
Hypothesis Hformat : format (<["limit" := JNum 1]> pq) = Ok q'.
Hypothesis Hsetup :
  _setup (Some (PyStr.replace PyStr.dquote PyStr.squote q')) = Ok (d, m).

(** The probe goes through and leaves the object as it was. *)
Lemma probe_succeeds :
  filter (Some []) (Some 1) true s = (Ok (RowsAndMap d m), s).
Proof.
  unfold filter, try_except, pushdown, bind, get, lift, ret.
  rewrite Hsql, Hquery, Hparse. simpl. rewrite Hformat, Hsetup. reflexivity.
Qed.

(** Reading the column map then sets the column map alone. *)
Lemma _col_map_sql_first :
  _internal_col_map s = None ->
  _col_map s = (Ok (Some (ColMap m)), set_internal_col_map (Some (ColMap m)) s).
Proof.
  intros Hcm. unfold _col_map. unfold bind at 1, get at 1.
  rewrite Hcm, Hsql. unfold bind at 1.
  rewrite (bind_ok _ _ _ _ _ probe_succeeds). reflexivity.
Qed.

(** With the rows not materialized, [drop_columns] raises
    [AttributeError] whatever columns it is given, and the rows stay
    unmaterialized. *)
Lemma drop_columns_sql_probe l :
  _internal_df s = None -> _internal_col_map s = None ->
  (drop_columns l s).1 = Raise AttributeError /\
  _internal_df (drop_columns l s).2 = None.
Proof.
  intros Hdf Hcm. destruct l as [|col l].
  - rewrite (drop_columns_nil_unmaterialized parse format binary_ops _setup s Hdf).
    split; [reflexivity | exact Hdf].
  - set (s1 := set_internal_col_map (Some (ColMap m)) s).
    assert (Hfold : py_fold resolve_column (col :: l) [] s
                    = (Ok (map (resolve m) (col :: l)), s1)).
    { simpl py_fold.
      assert (Hstep : resolve_column [] col s = (Ok [resolve m col], s1)).
      { unfold resolve_column.
        rewrite (bind_ok _ _ _ _ _ (_col_map_sql_first Hcm)).
        fold s1. unfold lift, bind at 1. simpl py_in. unfold resolve.
        destruct (m !! col) as [v|] eqn:Hv; simpl.
        - rewrite (bind_ok _ _ _ _ _
                     (_col_map_cached parse format binary_ops _setup s1
                        (ColMap m) eq_refl)).
          unfold bind, lift, ret. simpl. now rewrite Hv.
        - reflexivity. }
      rewrite (bind_ok _ _ _ _ _ Hstep).
      now rewrite (resolve_columns_cached parse format binary_ops _setup
                     m l [resolve m col] s1 eq_refl). }
    unfold drop_columns. rewrite (bind_ok _ _ _ _ _ Hfold).
    unfold bind, get, raise. simpl. rewrite Hdf. split; [reflexivity | exact Hdf].
Qed.

End DropColumnsSql.

(** ** The code at work on the demo backend *)

Example lower_LIKE : PyStr.lower "LiKe" = "like".
Proof. reflexivity. Qed.

Example strip_percent : PyStr.strip PyStr.percent "%%bob%" = "bob".
Proof. reflexivity. Qed.

Example str_of_int : PyStr.str (SInt (-12)) = "-12".
Proof. reflexivity. Qed.

Example contains_sub : PyStr.contains "a" "col_a" = true.
Proof. reflexivity. Qed.

(** Loose equality: [("a", "=", 1)] keeps the cells ["1"] and [1]. *)
Example filter_df_eq_loose :
  _filter_df (pd := Demo.pandas) ("a", "=", SInt 1)
    (mkDF ["a"] [[SStr "1"]; [SInt 1]; [SStr "2"]])
  = Ok (mkDF ["a"] [[SStr "1"]; [SInt 1]]).
Proof. reflexivity. Qed.

(** [like] strips the wildcards and tests for a substring. *)
Example filter_df_like :
  _filter_df (pd := Demo.pandas) ("b", "LIKE", SStr "%bob%") Demo.table
  = Ok (mkDF ["a"; "b"] [[SInt 1; SStr "bob"]; [SStr "1"; SStr "bobby"]]).
Proof. reflexivity. Qed.

(** A cell that is no number fails the coercion and is left out. *)
Example filter_df_gt_coerce :
  _filter_df (pd := Demo.pandas) ("a", ">", SInt 5)
    (mkDF ["a"] [[SInt 7]; [SStr "seven"]; [SStr "9"]])
  = Ok (mkDF ["a"] [[SInt 7]; [SStr "9"]]).
Proof. reflexivity. Qed.

(** The translated query of the probe has its double quotes replaced. *)
Example replace_quotes :
  PyStr.replace PyStr.dquote PyStr.squote
    (String PyStr.dquote ("a" ++ String PyStr.dquote " = 1"))
  = "'a' = 1".
Proof. reflexivity. Qed.

(** When the pushdown of the probe fails, [_col_map] unpacks the table
    the fallback returns: with two columns the second label becomes the
    column map, with any other number the unpacking raises. *)
Example col_map_after_fallback_two_columns :
  (_col_map (pd := Demo.pandas) Demo.parse_fails Demo.format Demo.binary_ops
            (Demo._setup Demo.table) sql_source).1
  = Ok (Some (ColLabel "b")).
Proof. vm_compute. reflexivity. Qed.

Example col_map_after_fallback_three_columns :
  (_col_map (pd := Demo.pandas) Demo.parse_fails Demo.format Demo.binary_ops
            (Demo._setup Demo.table3) sql_source).1
  = Raise UnpackError.
Proof. vm_compute. reflexivity. Qed.

(** An adapter that raises leaves the object as it was. *)
Example df_adapter_raises :
  df Demo._setup_fails plain_source = (Raise NotImplementedError, plain_source).
Proof. reflexivity. Qed.

(** [drop_columns(["a"])] with the map [a -> col_a] removes [col_a] and
    nothing else. *)
Example drop_columns_through_map :
  _internal_df
    (drop_columns (pd := Demo.pandas) Demo.parse Demo.format Demo.binary_ops
       (fun _ => Ok (mkDF ["col_a"; "b"] [[SInt 1; SInt 2]],
                     <["a" := "col_a"]> (<["b" := "b"]> ∅)))
       ["a"] plain_source).2
  = Some (mkDF ["b"] [[SInt 2]]).
Proof. vm_compute. reflexivity. Qed.

(** A valid declaration is recorded with the type of its category. *)
Example set_subtypes_records :
  declared
    (set_subtypes (pd := Demo.pandas) Demo.parse Demo.format Demo.binary_ops
       Demo.DATA_TYPES_SUBTYPES (Demo._setup Demo.table)
       [("a", "Int")] plain_source).2
  = (<["a" := "Numeric"]> ∅, <["a" := "Int"]> ∅).
Proof. vm_compute. reflexivity. Qed.

(** * Further properties of the code *)

(** ** [_make_col_map] *)

Lemma make_col_map_lookup cols : forall (m0 : gmap string string) c,
  foldl (fun col_map col => <[col := col]> col_map) m0 cols !! c
  = if bool_decide (c ∈ cols) then Some c else m0 !! c.
Proof.
  induction cols as [|x cols IH]; intros m0 c; simpl; [reflexivity |].
  rewrite IH. destruct (decide (c ∈ cols)) as [Hin|Hnin].
  - rewrite !bool_decide_eq_true_2; [reflexivity | now right | exact Hin].
  - rewrite (bool_decide_eq_false_2 (c ∈ cols)) by exact Hnin.
    destruct (decide (c = x)) as [->|Hne].
    + rewrite lookup_insert_eq, bool_decide_eq_true_2; [reflexivity | left].
    + rewrite lookup_insert_ne by congruence.
      rewrite bool_decide_eq_false_2; [reflexivity |].
      intros Hc. apply elem_of_cons in Hc as [?|?]; contradiction.
Qed.

(** X1: [_make_col_map] hands the table back as it is, with a map whose
    keys are exactly the column labels of the table, each mapped to
    itself. *)
Theorem make_col_map_identity d :
  (_make_col_map d).1 = d /\
  forall c, (_make_col_map d).2 !! c
            = if bool_decide (c ∈ columns d) then Some c else None.
Proof.
  split; [reflexivity |].
  intros c. unfold _make_col_map. simpl. rewrite make_col_map_lookup.
  now rewrite lookup_empty.
Qed.

(** ** The cached reads *)

Section Memo.

Context {pd : Pandas}.
Variable parse : string -> res (gmap string json).
Variable format : gmap string json -> res string.
Variable binary_ops : gmap string string.
Variable _setup : option string -> res (DataFrame * gmap string string).

Lemma df_result s d s1 :
  df _setup s = (Ok d, s1) -> _internal_df s1 = Some d.
Proof.
  unfold df. unfold bind at 1, get at 1.
  destruct (_internal_df s) as [d0|] eqn:Hd.
  - unfold ret. intros [= <- <-]. exact Hd.
  - intros Hrun. apply bind_inv_ok in Hrun as (r & s2 & _ & Hrun).
    apply bind_inv_ok in Hrun as ([] & s3 & Hmod & Hret).
    unfold modify in Hmod. unfold ret in Hret.
    injection Hmod as <-. injection Hret as <- <-. reflexivity.
Qed.

Lemma df_cached s d :
  _internal_df s = Some d -> df _setup s = (Ok d, s).
Proof. intros Hd. unfold df, bind, get, ret. now rewrite Hd. Qed.

(** X2: once a read of the rows has returned a table, every later read
    returns that table and leaves the object as it is, whatever the
    adapter would answer by then: the adapter is not asked again. *)
Theorem df_memoized s d s1 :
  df _setup s = (Ok d, s1) ->
  forall _setup', df _setup' s1 = (Ok d, s1).
Proof.
  intros Hrun _setup'. apply df_result in Hrun.
  unfold df, bind, get, ret. now rewrite Hrun.
Qed.

(** X3: once a read of the column map has returned, every later read
    returns the same value and leaves the object as it is, whatever the
    parser, the serializer, the operator registry and the adapter would
    answer by then. *)
Theorem _col_map_memoized s cm s1 :
  _col_map parse format binary_ops _setup s = (Ok cm, s1) ->
  forall parse' format' binary_ops' _setup',
    _col_map parse' format' binary_ops' _setup' s1 = (Ok cm, s1).
Proof.
  intros Hrun parse' format' binary_ops' _setup'.
  apply _col_map_result in Hrun as [Hcm Hsome].
  destruct cm as [cm|]; [| contradiction].
  now apply _col_map_cached.
Qed.

End Memo.

(** The rows of [plain_source], read from the demo backend and then from
    an adapter that raises. *)
Lemma df_memoized_witness :
  df Demo._setup_fails loaded_source = (Ok Demo.table, loaded_source).
Proof.
  apply (df_memoized (Demo._setup Demo.table) plain_source Demo.table
           loaded_source).
  reflexivity.
Defined.

(** The column map of [sql_source], probed from the demo backend and then
    read with a parser and an adapter that raise. *)
Lemma _col_map_memoized_witness :
  _col_map (pd := Demo.pandas) Demo.parse_fails Demo.format Demo.binary_ops
    Demo._setup_fails (set_internal_col_map (Some demo_col_map) sql_source)
  = (Ok (Some demo_col_map),
     set_internal_col_map (Some demo_col_map) sql_source).
Proof.
  apply (_col_map_memoized (pd := Demo.pandas) Demo.parse Demo.format
           Demo.binary_ops (Demo._setup Demo.table) sql_source).
  vm_compute. reflexivity.
Defined.

(** ** Rows read after the probe *)

(** X4: on a query-backed source with nothing cached, whose probe the
    backend answers with the column map [m], a later read of the rows
    asks the adapter again, without a query, and stores the column map
    [m0] that comes with the rows in place of [m]: from then on the
    column map reads as [m0]. *)
Theorem rows_read_replaces_probed_map {pd : Pandas}
    parse format binary_ops _setup s q q' pq d m d0 m0 :
  is_sql s = true ->
  query s = Some q ->
  parse q = Ok pq ->
  format (<["limit" := JNum 1]> pq) = Ok q' ->
  _setup (Some (PyStr.replace PyStr.dquote PyStr.squote q')) = Ok (d, m) ->
  _setup None = Ok (d0, m0) ->
  _internal_df s = None ->
  _internal_col_map s = None ->
  let s1 := (_col_map parse format binary_ops _setup s).2 in
  let s2 := (df _setup s1).2 in
  (_col_map parse format binary_ops _setup s).1 = Ok (Some (ColMap m)) /\
  (df _setup s1).1 = Ok d0 /\
  _col_map parse format binary_ops _setup s2 = (Ok (Some (ColMap m0)), s2).
Proof.
  intros Hsql Hquery Hparse Hformat Hsetup Hsetup0 Hdf Hcm s1 s2.
  pose proof (_col_map_sql_first parse format binary_ops _setup s q q' pq d m
                Hsql Hquery Hparse Hformat Hsetup Hcm) as Hprobe.
  subst s2 s1. rewrite Hprobe. simpl.
  assert (Hrows : df _setup (set_internal_col_map (Some (ColMap m)) s)
                  = (Ok d0,
                     set_internal_col_map (Some (ColMap m0))
                       (set_internal_df (Some d0)
                          (set_internal_col_map (Some (ColMap m)) s)))).
  { unfold df, bind, get, lift, modify, ret. simpl.
    rewrite Hdf, Hsetup0. reflexivity. }
  rewrite Hrows. simpl. split_and!; reflexivity.
Qed.

(** The demo backend, probed and then read. *)
Lemma rows_read_replaces_probed_map_witness :
  let cm := _col_map (pd := Demo.pandas) Demo.parse Demo.format
                     Demo.binary_ops (Demo._setup Demo.table) in
  let s1 := (cm sql_source).2 in
  let s2 := (df (Demo._setup Demo.table) s1).2 in
  (cm sql_source).1 = Ok (Some (ColMap (_make_col_map Demo.table).2)) /\
  (df (Demo._setup Demo.table) s1).1 = Ok Demo.table /\
  cm s2 = (Ok (Some (ColMap (_make_col_map Demo.table).2)), s2).
Proof.
  apply (rows_read_replaces_probed_map (pd := Demo.pandas) Demo.parse
           Demo.format Demo.binary_ops (Demo._setup Demo.table) sql_source
           Demo.the_query "SELECT * FROM t LIMIT 1"
           (<["select" := JStr "*"]> (<["from" := JStr "t"]> ∅))
           Demo.table (_make_col_map Demo.table).2
           Demo.table (_make_col_map Demo.table).2);
    reflexivity.
Defined.

(** ** What [filter] leaves alone *)

Lemma same_but_log_refl s : same_but_log s s.
Proof.
  unfold same_but_log. split_and!; try reflexivity.
  exists []. now rewrite app_nil_r.
Qed.

Lemma same_but_log_add_log s0 w s :
  same_but_log s0 s -> same_but_log s0 (add_log w s).
Proof.
  intros (Hd & Hdf & Hcm & Hsql & Hq & ws & Hlog).
  unfold same_but_log. split_and!; try assumption.
  exists (ws ++ [w])%list. simpl. rewrite Hlog. now rewrite app_assoc.
Qed.

Section FilterFrame.

Context {pd : Pandas}.
Variable parse : string -> res (gmap string json).
Variable format : gmap string json -> res string.
Variable binary_ops : gmap string string.
Variable _setup : option string -> res (DataFrame * gmap string string).

Abbreviation pushdown := (pushdown parse format binary_ops _setup).
Abbreviation filter := (filter parse format binary_ops _setup).

(** The translator only logs. *)
Lemma where_step_logs s0 pq c :
  preserves (same_but_log s0) (where_step binary_ops pq c).
Proof.
  destruct c as [[col op] value]. unfold where_step.
  repeat preserves_step; now apply same_but_log_add_log.
Qed.

Lemma pushdown_logs s0 w l g : preserves (same_but_log s0) (pushdown w l g).
Proof.
  unfold pushdown. repeat preserves_step. apply where_step_logs.
Qed.

(** X5: [filter] never changes the declared types and subtypes, nor
    [is_sql], nor the stored query, on either path and whether it returns
    or raises. *)
Theorem filter_keeps_declarations w l g s :
  let s' := (filter w l g s).2 in
  declared s' = declared s /\ is_sql s' = is_sql s /\ query s' = query s.
Proof.
  apply (filter_preserves parse format binary_ops _setup
           (fun s' => declared s' = declared s /\ is_sql s' = is_sql s
                      /\ query s' = query s)).
  - split; intros; assumption.
  - split_and!; reflexivity.
Qed.

(** X6: when the rows are materialized, [filter] leaves the cached rows
    and the column map as they are too: on either path, and for every
    outcome, the object differs at most by warnings added to the log. *)
Theorem filter_keeps_materialized w l g s d :
  _internal_df s = Some d ->
  same_but_log s (filter w l g s).2.
Proof.
  intros Hd. unfold filter, try_except.
  pose proof (pushdown_logs s w l g s (same_but_log_refl s)) as Hpush.
  destruct (pushdown w l g s) as [[r|e] s1]; simpl in Hpush; [exact Hpush |].
  assert (Hd1 : _internal_df s1 = Some d).
  { destruct Hpush as (_ & Hdf & _). now rewrite Hdf. }
  unfold fallback. rewrite (bind_ok _ _ _ _ _ (df_cached _setup s1 d Hd1)).
  unfold bind, lift.
  destruct (res_fold _ (default [] w) d) as [d'|e']; [| exact Hpush].
  destruct (truthy_limit l); exact Hpush.
Qed.

End FilterFrame.

(** The demo table, materialized and then filtered. *)
Lemma filter_keeps_materialized_witness :
  let s := set_internal_col_map (Some demo_col_map)
             (set_internal_df (Some Demo.table) plain_source) in
  same_but_log s
    (filter (pd := Demo.pandas) Demo.parse Demo.format Demo.binary_ops
            (Demo._setup Demo.table) (Some [("a", "=", SInt 1)]) (Some 1)
            false s).2.
Proof.
  apply (filter_keeps_materialized (pd := Demo.pandas) Demo.parse Demo.format
           Demo.binary_ops (Demo._setup Demo.table) _ _ _ _ Demo.table).
  reflexivity.
Defined.

(** ** What the fallback returns *)

Lemma head_narrows l d : narrows d (DF.head l d).
Proof.
  unfold DF.head. destruct (0 <=? l); split; try reflexivity; simpl;
    intros row Hrow; eapply subseteq_take, Hrow.
Qed.

Section FallbackRows.

Context {pd : Pandas}.
Variable parse : string -> res (gmap string json).
Variable format : gmap string json -> res string.
Variable binary_ops : gmap string string.
Variable _setup : option string -> res (DataFrame * gmap string string).

(** The predicates applied in turn: the table only narrows, and each
    predicate's column is free of nulls in the end. *)
Lemma fold_filter_df w : forall d d',
  res_fold (fun df cond => _filter_df cond df) w d = Ok d' ->
  narrows d d' /\
  forall col op val, (col, op, val) ∈ w ->
    exists i, DF.index_of col (columns d) = Some i /\
              forall row, row ∈ rows d' -> DF.cell_at i row <> SNull.
Proof.
  induction w as [|[[col op] val] w IH]; intros d d' Hfold; simpl in Hfold.
  - injection Hfold as <-. split; [apply narrows_refl |].
    intros col op val Hin. now apply elem_of_nil in Hin.
  - apply res_bind_inv_ok in Hfold as (d1 & Hstep & Hfold).
    apply filter_df_ok in Hstep as (i & Hi & Hnarrow).
    destruct (IH d1 d' Hfold) as [Hn1 Hrest].
    assert (Hcols : columns d1 = columns d) by apply Hnarrow.
    split.
    + destruct Hnarrow as [Hc Hr], Hn1 as [Hc1 Hr1]. split; [congruence |].
      intros row Hrow. apply Hr1, Hr in Hrow. simpl in Hrow.
      apply list_elem_of_In, filter_In in Hrow as [Hrow _].
      now apply list_elem_of_In.
    + intros col' op' val' Hin.
      apply elem_of_cons in Hin as [[= -> -> ->]|Hin].
      * exists i. split; [exact Hi |].
        intros row Hrow. apply Hn1, Hnarrow in Hrow. simpl in Hrow.
        apply list_elem_of_In, filter_In in Hrow as [_ Hnn].
        intros Hnull. rewrite Hnull in Hnn. discriminate.
      * destruct (Hrest col' op' val' Hin) as (j & Hj & Hnn).
        exists j. split; [now rewrite <- Hcols | exact Hnn].
Qed.

(** X7: on a source that is not query-backed, what [filter] returns is
    cut from the cached table: it has the columns of the table, each of
    its rows is a row of the table, and no returned row is null in the
    column of any predicate of [where]. *)
Theorem filter_plain_rows s w l g r s' :
  is_sql s = false ->
  filter parse format binary_ops _setup w l g s = (Ok r, s') ->
  exists d,
    _internal_df s' = Some d /\
    narrows d (result_rows r) /\
    forall col op val, (col, op, val) ∈ default [] w ->
      exists i, DF.index_of col (columns d) = Some i /\
                forall row, row ∈ rows (result_rows r) ->
                            DF.cell_at i row <> SNull.
Proof.
  intros Hsql Hrun. rewrite filter_not_sql in Hrun by exact Hsql.
  unfold fallback in Hrun.
  apply bind_inv_ok in Hrun as (d & s1 & Hdf & Hrun).
  apply bind_inv_ok in Hrun as (d1 & s2 & Hfold & Hrun).
  unfold lift in Hfold.
  assert (Hs : s2 = s1) by (now inversion Hfold). subst s2.
  assert (Hf : res_fold (fun df cond => _filter_df cond df) (default [] w) d
               = Ok d1) by (now inversion Hfold).
  apply df_result in Hdf.
  destruct (fold_filter_df _ _ _ Hf) as [Hn Hnn].
  assert (Hres : s' = s1 /\ narrows d1 (result_rows r)).
  { destruct (truthy_limit l); unfold ret in Hrun; injection Hrun as <- <-;
      (split; [reflexivity |]); simpl;
      [apply head_narrows | apply narrows_refl]. }
  destruct Hres as [-> Hn1]. exists d. split; [exact Hdf |].
  split; [eapply narrows_trans; eassumption |].
  intros col op val Hin. destruct (Hnn col op val Hin) as (i & Hi & Hrows).
  exists i. split; [exact Hi |]. intros row Hrow. apply Hrows.
  now apply Hn1.
Qed.

End FallbackRows.

(** Two predicates on the demo table. *)
Lemma filter_plain_rows_witness :
  exists d,
    _internal_df
      (set_internal_col_map (Some demo_col_map)
         (set_internal_df (Some Demo.table) plain_source)) = Some d /\
    narrows d
      (result_rows
         (Rows (mkDF ["a"; "b"] [[SInt 1; SStr "bob"]]))) /\
    forall col op val,
      (col, op, val)
        ∈ default [] (Some [("a", "!=", SInt 5); ("b", "like", SStr "bob")]) ->
      exists i, DF.index_of col (columns d) = Some i /\
                forall row,
                  row ∈ rows (result_rows
                                (Rows (mkDF ["a"; "b"] [[SInt 1; SStr "bob"]]))) ->
                  DF.cell_at i row <> SNull.
Proof.
  apply (filter_plain_rows (pd := Demo.pandas) Demo.parse Demo.format
           Demo.binary_ops (Demo._setup Demo.table) plain_source
           (Some [("a", "!=", SInt 5); ("b", "like", SStr "bob")])
           (Some 1) false).
  - reflexivity.
  - vm_compute. reflexivity.
Defined.

(** ** Operators in any case *)

Lemma lower_ascii_idemp c : PyStr.lower_ascii (PyStr.lower_ascii c) = PyStr.lower_ascii c.
Proof.
  destruct c as [[] [] [] [] [] [] [] []]; reflexivity.
Qed.

Lemma lower_idemp s : PyStr.lower (PyStr.lower s) = PyStr.lower s.
Proof.
  induction s as [|c s IH]; simpl; [reflexivity |].
  now rewrite lower_ascii_idemp, IH.
Qed.

Section AnyCase.

Context {pd : Pandas}.
Variable parse : string -> res (gmap string json).
Variable format : gmap string json -> res string.
Variable binary_ops : gmap string string.
Variable _setup : option string -> res (DataFrame * gmap string string).

Lemma where_step_lower pq c s :
  where_step binary_ops pq (lower_op c) s = where_step binary_ops pq c s.
Proof.
  destruct c as [[col op] value]. unfold where_step, lower_op. simpl.
  now rewrite !lower_idemp.
Qed.

Lemma _filter_df_lower c d : _filter_df (lower_op c) d = _filter_df c d.
Proof.
  destruct c as [[col op] value]. unfold _filter_df, lower_op. simpl.
  now rewrite !lower_idemp.
Qed.

Lemma where_fold_lower w : forall pq s,
  py_fold (where_step binary_ops) (map lower_op w) pq s
  = py_fold (where_step binary_ops) w pq s.
Proof.
  induction w as [|c w IH]; intros pq s; cbn [map py_fold]; [reflexivity |].
  unfold bind. rewrite where_step_lower.
  destruct (where_step binary_ops pq c s) as [[pq'|e] s1]; [apply IH | reflexivity].
Qed.

Lemma filter_df_fold_lower w : forall d,
  res_fold (fun df cond => _filter_df cond df) (map lower_op w) d
  = res_fold (fun df cond => _filter_df cond df) w d.
Proof.
  induction w as [|c w IH]; intros d; cbn [map res_fold]; [reflexivity |].
  rewrite _filter_df_lower.
  destruct (_filter_df c d) as [d'|e]; [apply IH | reflexivity].
Qed.

(** X8: operators are read without regard to case on both paths: writing
    every operator of [where] in lower case changes neither what [filter]
    returns or raises nor the state it leaves, warnings included. *)
Theorem filter_any_case w l g s :
  filter parse format binary_ops _setup (map lower_op <$> w) l g s
  = filter parse format binary_ops _setup w l g s.
Proof.
  assert (Hdef : default [] (map lower_op <$> w) = map lower_op (default [] w))
    by (destruct w; reflexivity).
  unfold filter, try_except.
  assert (Hpush : pushdown parse format binary_ops _setup
                    (map lower_op <$> w) l g s
                  = pushdown parse format binary_ops _setup w l g s).
  { unfold pushdown, bind, get. destruct (is_sql s); [| reflexivity].
    unfold ret at 1 4, lift at 1 4.
    destruct (match query s with Some q => parse q | None => Raise TypeError end)
      as [pq|e]; [| reflexivity].
    now rewrite Hdef, where_fold_lower. }
  rewrite Hpush.
  destruct (pushdown parse format binary_ops _setup w l g s) as [[r|e] s1];
    [reflexivity |].
  unfold fallback, bind. destruct (df _setup s1) as [[d|e'] s2]; [| reflexivity].
  now rewrite Hdef, filter_df_fold_lower.
Qed.

End AnyCase.

(** ** When a turn of the translator raises *)

(** X9: a turn of the translator raises exactly when the operator is
    [like] with a value that is no string, or when the [where] of the
    parsed query is a value without a length; an operator the registry
    does not know is no reason to raise.  Whatever the outcome, the turn
    logs one warning when the registry does not know the operator and
    changes nothing else. *)
Theorem where_step_raises binary_ops pq col op value s :
  let r := where_step binary_ops pq (col, op, value) s in
  ((exists pq', r.1 = Ok pq') <->
   (PyStr.lower op = "like" -> exists v, value = SStr v) /\
   (exists n, py_len (default (JDict []) (pq !! "where")) = Ok n)) /\
  r.2 = match binary_ops !! PyStr.lower op with
        | Some _ => s
        | None => add_log (OperatorNotFound (PyStr.lower op)) s
        end.
Proof.
  unfold where_step. rewrite lower_idemp.
  destruct (binary_ops !! PyStr.lower op) as [j|];
    destruct (String.eqb_spec (PyStr.lower op) "like") as [Hlike|Hlike];
    destruct value as [|z|v];
    destruct (py_len (default (JDict []) (pq !! "where"))) as [n|e] eqn:Hlen;
    unfold bind, modify, ret, raise, lift; simpl; rewrite ?Hlen; simpl;
    (split; [| reflexivity]);
    (split; [intros [pq' Hpq'] | intros [Hv [n' Hn]]]);
    try discriminate; eauto;
    try (destruct (Hv Hlike) as [v' Hv']; discriminate);
    try (split; [intros Hl; try contradiction; eauto | eauto]).
Qed.

(** ** [set_subtypes] when nothing is wrong *)

Lemma type_of_subtype_category registry subtype type_ :
  type_of_subtype registry subtype = Some type_ ->
  exists subtypes, (type_, subtypes) ∈ registry /\ subtype ∈ subtypes.
Proof.
  unfold type_of_subtype.
  destruct (List.find _ registry) as [[t subs]|] eqn:Hfind; [| discriminate].
  intros [= <-]. apply find_Some_elem_of in Hfind as [Hin Hsub].
  exists subs. split; [exact Hin |]. now apply bool_decide_eq_true in Hsub.
Qed.

(** X10: when no pair of the mapping pairs a column of the column map
    with a subtype outside every category, [set_subtypes] returns
    normally, and every pair on a column of the map is recorded: the
    column's declared subtype is the one given, and its declared type is
    a category of the registry that lists that subtype. *)
Theorem set_subtypes_records_all {pd : Pandas}
    parse format binary_ops registry _setup s cm m :
  reads_col_map parse format binary_ops _setup s cm ->
  NoDup m.*1 ->
  Forall (fun p => offending registry cm p = false) m ->
  let s' := (set_subtypes parse format binary_ops registry _setup m s).2 in
  (set_subtypes parse format binary_ops registry _setup m s).1 = Ok tt /\
  forall col subtype, (col, subtype) ∈ m -> present col cm = true ->
    data_subtypes s' !! col = Some subtype /\
    exists type_ subtypes,
      data_types s' !! col = Some type_ /\
      (type_, subtypes) ∈ registry /\ subtype ∈ subtypes.
Proof.
  intros Hread Hnd Hclean s'.
  destruct (set_subtypes_run parse format binary_ops registry _setup cm m s
              Hread) as [Hres Hdecl].
  destruct (find_clean _ _ Hclean) as [Hnone Hsame].
  rewrite Hnone in Hres. rewrite Hsame in Hdecl.
  split; [exact Hres |].
  intros col subtype Hin Hp.
  destruct (declare_recorded registry cm m (declared s) col subtype
              Hnd Hclean Hin Hp) as [Hsub Hty].
  rewrite <- Hdecl in Hsub, Hty. split; [exact Hsub |].
  destruct (type_of_subtype registry subtype) as [ty|] eqn:Htype.
  - destruct (type_of_subtype_category _ _ _ Htype) as (subs & Hreg & Hmem).
    exists ty, subs. auto.
  - rewrite Forall_forall in Hclean. specialize (Hclean _ Hin).
    unfold offending in Hclean. simpl in Hclean.
    rewrite Hp, Htype in Hclean. discriminate.
Qed.

(** [{"a": "Int", "x": "Date", "b": "Short Text"}] on the demo table,
    which has no column [x]. *)
Lemma set_subtypes_records_all_witness :
  let m := [("a", "Int"); ("x", "Date"); ("b", "Short Text")] in
  let call :=
    set_subtypes (pd := Demo.pandas) Demo.parse Demo.format Demo.binary_ops
                 Demo.DATA_TYPES_SUBTYPES (Demo._setup Demo.table) m
                 plain_source in
  call.1 = Ok tt /\
  forall col subtype, (col, subtype) ∈ m -> present col demo_col_map = true ->
    data_subtypes call.2 !! col = Some subtype /\
    exists type_ subtypes,
      data_types call.2 !! col = Some type_ /\
      (type_, subtypes) ∈ Demo.DATA_TYPES_SUBTYPES /\ subtype ∈ subtypes.
Proof.
  apply (set_subtypes_records_all (pd := Demo.pandas) Demo.parse Demo.format
           Demo.binary_ops Demo.DATA_TYPES_SUBTYPES (Demo._setup Demo.table)
           plain_source demo_col_map
           [("a", "Int"); ("x", "Date"); ("b", "Short Text")]).
  - vm_compute. reflexivity.
  - compute_done.
  - repeat constructor.
Defined.

(** ** What [drop_columns] removes *)

Lemma index_of_lookup c cols : forall p,
  DF.index_of c cols = Some p -> cols !! p = Some c.
Proof.
  induction cols as [|x cols IH]; intros p; simpl; [discriminate |].
  destruct (String.eqb_spec x c) as [->|Hne].
  - intros [= <-]. reflexivity.
  - destruct (DF.index_of c cols) as [p0|]; simpl; [| discriminate].
    intros [= <-]. simpl. now apply IH.
Qed.

Lemma index_of_None c cols : DF.index_of c cols = None <-> c ∉ cols.
Proof.
  induction cols as [|x cols IH]; simpl.
  - split; [intros _; apply not_elem_of_nil | reflexivity].
  - destruct (String.eqb_spec x c) as [->|Hne].
    + split; [discriminate | intros Hc; exfalso; apply Hc; left].
    + rewrite not_elem_of_cons. destruct (DF.index_of c cols); simpl.
      * split; [discriminate |]. intros [_ Hc]. now apply IH in Hc.
      * split; [| reflexivity]. intros _. split; [congruence | now apply IH].
Qed.

Lemma first_missing_Some labels cols l :
  DF.first_missing labels cols = Some l -> l ∈ labels /\ l ∉ cols.
Proof.
  induction labels as [|x labels IH]; simpl; [discriminate |].
  destruct (DF.index_of x cols) as [p|] eqn:Hx.
  - intros Hm. destruct (IH Hm). split; [now right | assumption].
  - intros [= <-]. split; [left | now apply index_of_None].
Qed.

(** A column that stays keeps its cells: its index in the remaining
    labels finds in every remaining row the cell it had. *)
Lemma remove_at_kept idxs c cols : forall i p,
  DF.index_of c cols = Some p ->
  (i + p)%nat ∉ idxs ->
  exists p',
    DF.index_of c (DF.remove_at idxs i cols) = Some p' /\
    forall row : list scalar,
      nth p' (DF.remove_at idxs i row) SNull = nth p row SNull.
Proof.
  induction cols as [|x cols IH]; intros i p; simpl; [discriminate |].
  destruct (String.eqb_spec x c) as [->|Hne].
  - intros [= <-] Hi. rewrite Nat.add_0_r in Hi.
    rewrite bool_decide_eq_false_2 by exact Hi. simpl.
    rewrite String.eqb_refl. exists 0%nat. split; [reflexivity |].
    intros [|y row]; simpl; [reflexivity |].
    now rewrite bool_decide_eq_false_2 by exact Hi.
  - destruct (DF.index_of c cols) as [p0|] eqn:Hp0; simpl; [| discriminate].
    intros [= <-] Hi. rewrite Nat.add_succ_r in Hi.
    destruct (IH (S i) p0 eq_refl Hi) as (p0' & Hidx & Hcells).
    destruct (decide (i ∈ idxs)) as [Hin|Hnin].
    + rewrite bool_decide_eq_true_2 by exact Hin. exists p0'.
      split; [exact Hidx |].
      intros [|y row]; simpl; [now destruct p0' |].
      rewrite bool_decide_eq_true_2 by exact Hin. apply Hcells.
    + rewrite bool_decide_eq_false_2 by exact Hnin. simpl.
      destruct (String.eqb_spec x c) as [?|_]; [contradiction |].
      rewrite Hidx. exists (S p0'). split; [reflexivity |].
      intros [|y row]; simpl; [reflexivity |].
      rewrite bool_decide_eq_false_2 by exact Hnin. apply Hcells.
Qed.

Lemma remove_at_subseteq {A} idxs (l : list A) : forall i x,
  x ∈ DF.remove_at idxs i l -> x ∈ l.
Proof.
  induction l as [|y l IH]; intros i x; simpl; [trivial |].
  destruct (bool_decide (i ∈ idxs)); intros Hx.
  - right. eapply IH, Hx.
  - apply elem_of_cons in Hx as [->|Hx]; [left | right; eapply IH, Hx].
Qed.

(** A label all of whose positions are removed is gone. *)
Lemma remove_at_gone idxs (c : string) (cols : list string) : forall i,
  (forall q, cols !! q = Some c -> (i + q)%nat ∈ idxs) ->
  c ∉ DF.remove_at idxs i cols.
Proof.
  induction cols as [|x cols IH]; intros i Hall; simpl.
  - apply not_elem_of_nil.
  - assert (Hrest : c ∉ DF.remove_at idxs (S i) cols).
    { apply IH. intros q Hq. rewrite Nat.add_succ_l, <- Nat.add_succ_r.
      now apply (Hall (S q)). }
    destruct (decide (i ∈ idxs)) as [Hin|Hnin].
    + now rewrite bool_decide_eq_true_2 by exact Hin.
    + rewrite bool_decide_eq_false_2 by exact Hnin.
      apply not_elem_of_cons. split; [| exact Hrest].
      intros ->. apply Hnin. specialize (Hall 0%nat eq_refl).
      now rewrite Nat.add_0_r in Hall.
Qed.

Lemma drop_getitem_other labels d d' c :
  DF.drop labels d = Ok d' -> c ∉ labels ->
  DF.getitem d' c = DF.getitem d c.
Proof.
  unfold DF.drop. destruct (DF.first_missing labels (columns d)); [discriminate |].
  intros [= <-] Hc. unfold DF.getitem. simpl.
  set (idxs := omap (fun l => DF.index_of l (columns d)) labels).
  destruct (DF.index_of c (columns d)) as [p|] eqn:Hp.
  - assert (Hnot : (0 + p)%nat ∉ idxs).
    { simpl. intros Hin. apply list_elem_of_omap in Hin as (l & Hl & Hlp).
      apply index_of_lookup in Hlp. apply index_of_lookup in Hp.
      assert (l = c) by congruence. subst l. contradiction. }
    destruct (remove_at_kept idxs c (columns d) 0 p Hp Hnot)
      as (p' & Hidx & Hcells).
    rewrite Hidx, map_map. f_equal. apply map_ext. intros row.
    unfold DF.cell_at. apply Hcells.
  - assert (Hgone : DF.index_of c (DF.remove_at idxs 0 (columns d)) = None).
    { apply index_of_None. intros Hin. apply remove_at_subseteq in Hin.
      apply index_of_None in Hp. contradiction. }
    now rewrite Hgone.
Qed.

Lemma drop_getitem_dropped labels d d' c :
  DF.drop labels d = Ok d' -> NoDup (columns d) -> c ∈ labels ->
  DF.getitem d' c = Raise (KeyError c).
Proof.
  unfold DF.drop.
  destruct (DF.first_missing labels (columns d)) as [l|] eqn:Hmiss;
    [discriminate |].
  intros [= <-] Hnd Hc. unfold DF.getitem. simpl.
  set (idxs := omap (fun l => DF.index_of l (columns d)) labels).
  assert (Hp : exists p, DF.index_of c (columns d) = Some p).
  { clear idxs. induction labels as [|x labels IH]; [now apply elem_of_nil in Hc |].
    simpl in Hmiss. destruct (DF.index_of x (columns d)) as [p|] eqn:Hx;
      [| discriminate].
    apply elem_of_cons in Hc as [->|Hc]; [eauto | now apply IH]. }
  destruct Hp as [p Hp].
  assert (Hgone : DF.index_of c (DF.remove_at idxs 0 (columns d)) = None).
  { apply index_of_None, remove_at_gone. intros q Hq. simpl.
    apply index_of_lookup in Hp as Hp'.
    assert (q = p) by (eapply NoDup_lookup; eassumption). subst q.
    apply list_elem_of_omap. exists c. split; assumption. }
  now rewrite Hgone.
Qed.

Section DropColumnsCached.

Context {pd : Pandas}.
Variable parse : string -> res (gmap string json).
Variable format : gmap string json -> res string.
Variable binary_ops : gmap string string.
Variable _setup : option string -> res (DataFrame * gmap string string).

Abbreviation drop_columns := (drop_columns parse format binary_ops _setup).

Lemma drop_columns_cached s d m l :
  _internal_df s = Some d -> _internal_col_map s = Some (ColMap m) ->
  drop_columns l s =
  match DF.drop (map (resolve m) l) d with
  | Ok d' => (Ok tt, set_internal_df (Some d') s)
  | Raise e => (Raise e, s)
  end.
Proof.
  intros Hd Hcm. unfold drop_columns.
  rewrite (bind_ok _ _ _ _ _
             (resolve_columns_cached parse format binary_ops _setup m l [] s Hcm)).
  unfold bind, get, lift, modify. simpl. rewrite Hd.
  destruct (DF.drop _ d); reflexivity.
Qed.

(** X11: with the rows and a column map cached, [drop_columns] never
    changes the column map, so the names it dropped stay in it.  It
    raises only [KeyError], for a resolved name that is no column of the
    table, and then the object is exactly as it was: nothing is dropped.
    When it returns, the table is the cached one without the resolved
    columns. *)
Theorem drop_columns_keeps_map s d m l :
  _internal_df s = Some d ->
  _internal_col_map s = Some (ColMap m) ->
  let r := drop_columns l s in
  _internal_col_map r.2 = Some (ColMap m) /\
  (forall e, r.1 = Raise e ->
     r.2 = s /\
     exists label, e = KeyError label /\
                   label ∈ map (resolve m) l /\ label ∉ columns d) /\
  (r.1 = Ok tt ->
     exists d', DF.drop (map (resolve m) l) d = Ok d' /\
                r.2 = set_internal_df (Some d') s).
Proof.
  intros Hd Hcm r. subst r. rewrite (drop_columns_cached s d m l Hd Hcm).
  unfold DF.drop.
  destruct (DF.first_missing (map (resolve m) l) (columns d)) as [label|] eqn:Hmiss;
    simpl.
  - split_and!; [exact Hcm | | discriminate].
    intros e [= <-]. split; [reflexivity |].
    apply first_missing_Some in Hmiss as [Hin Hnot]. eauto.
  - split_and!; [exact Hcm | discriminate |]. intros _. eauto.
Qed.

(** X12: after [drop_columns] has returned, every column whose label is
    not one of the resolved names reads, through [__getitem__], as it
    read in the table before; and when the labels of the table are
    distinct, reading a dropped column raises [KeyError]. *)
Theorem drop_columns_other_columns s d m l s' :
  _internal_df s = Some d ->
  _internal_col_map s = Some (ColMap m) ->
  drop_columns l s = (Ok tt, s') ->
  (forall c, c ∉ map (resolve m) l ->
     __getitem__ _setup c s' = (DF.getitem d c, s')) /\
  (NoDup (columns d) ->
   forall c, c ∈ map (resolve m) l ->
     __getitem__ _setup c s' = (Raise (KeyError c), s')).
Proof.
  intros Hd Hcm Hrun. rewrite (drop_columns_cached s d m l Hd Hcm) in Hrun.
  destruct (DF.drop (map (resolve m) l) d) as [d'|e] eqn:Hdrop; [| discriminate].
  injection Hrun as <-.
  assert (Hget : forall c,
            __getitem__ _setup c (set_internal_df (Some d') s)
            = (DF.getitem d' c, set_internal_df (Some d') s)).
  { intros c. unfold __getitem__.
    now rewrite (bind_ok _ _ _ _ _
                   (df_cached _setup (set_internal_df (Some d') s) d' eq_refl)). }
  split.
  - intros c Hc. rewrite Hget. f_equal.
    eapply drop_getitem_other; eassumption.
  - intros Hnd c Hc. rewrite Hget. f_equal.
    eapply drop_getitem_dropped; eassumption.
Qed.

End DropColumnsCached.

(** The demo table, materialized, with [a] dropped. *)
Lemma drop_columns_keeps_map_witness :
  let s := loaded_source in
  let r := drop_columns (pd := Demo.pandas) Demo.parse Demo.format
             Demo.binary_ops (Demo._setup Demo.table) ["a"] s in
  _internal_col_map r.2 = Some demo_col_map /\
  (forall e, r.1 = Raise e ->
     r.2 = s /\
     exists label, e = KeyError label /\
                   label ∈ map (resolve (_make_col_map Demo.table).2) ["a"] /\
                   label ∉ columns Demo.table) /\
  (r.1 = Ok tt ->
     exists d', DF.drop (map (resolve (_make_col_map Demo.table).2) ["a"])
                        Demo.table = Ok d' /\
                r.2 = set_internal_df (Some d') s).
Proof.
  apply (drop_columns_keeps_map (pd := Demo.pandas) Demo.parse Demo.format
           Demo.binary_ops (Demo._setup Demo.table) loaded_source Demo.table
           (_make_col_map Demo.table).2 ["a"]);
    reflexivity.
Defined.

Lemma drop_columns_other_columns_witness :
  let s := loaded_source in
  let s' := set_internal_df
              (Some (mkDF ["b"] [[SStr "bob"]; [SStr "alice"]; [SStr "bobby"]]))
              s in
  (forall c, c ∉ map (resolve (_make_col_map Demo.table).2) ["a"] ->
     __getitem__ (Demo._setup Demo.table) c s'
     = (DF.getitem Demo.table c, s')) /\
  (NoDup (columns Demo.table) ->
   forall c, c ∈ map (resolve (_make_col_map Demo.table).2) ["a"] ->
     __getitem__ (Demo._setup Demo.table) c s' = (Raise (KeyError c), s')).
Proof.
  apply (drop_columns_other_columns (pd := Demo.pandas) Demo.parse Demo.format
           Demo.binary_ops (Demo._setup Demo.table) loaded_source Demo.table
           (_make_col_map Demo.table).2 ["a"]).
  - reflexivity.
  - reflexivity.
  - vm_compute. reflexivity.
Defined.

(** ** The delegation to the table *)

Lemma getitem_length d key col :
  DF.getitem d key = Ok col -> length col = length (rows d).
Proof.
  unfold DF.getitem. destruct (DF.index_of key (columns d)); [| discriminate].
  intros [= <-]. apply length_map.
Qed.

Section Delegation.

Variable _setup : option string -> res (DataFrame * gmap string string).
Variable pd_setitem : DataFrame -> string -> item_value -> res DataFrame.

Abbreviation df := (df _setup).
Abbreviation __len__ := (__len__ _setup).
Abbreviation __getitem__ := (__getitem__ _setup).
Abbreviation __setitem__ := (__setitem__ _setup pd_setitem).

(** X13: reading an item first materializes the rows.  For a label of
    the table it returns a column with as many cells as [__len__] counts
    rows; for any other key it raises [KeyError], and the rows stay
    materialized all the same. *)
Theorem getitem_materializes s d s1 key :
  df s = (Ok d, s1) ->
  _internal_df s1 = Some d /\
  (key ∈ columns d ->
   exists col, __getitem__ key s = (Ok col, s1) /\
               __len__ s = (Ok (length col), s1)) /\
  (key ∉ columns d -> __getitem__ key s = (Raise (KeyError key), s1)).
Proof.
  intros Hdf. split; [now apply (df_result _setup s) |].
  unfold __getitem__, __len__. rewrite !(bind_ok _ _ _ _ _ Hdf).
  unfold lift, ret, DF.getitem. split.
  - intros Hin. destruct (DF.index_of key (columns d)) as [i|] eqn:Hi.
    + eexists. split; [reflexivity |]. now rewrite length_map.
    + apply index_of_None in Hi. contradiction.
  - intros Hnin. apply index_of_None in Hnin. now rewrite Hnin.
Qed.

Lemma lazy_pair_inv_setitem s d d' :
  lazy_pair_inv s -> _internal_df s = Some d ->
  lazy_pair_inv (set_internal_df (Some d') s).
Proof.
  intros [Hr Hb] Hd.
  unfold lazy_pair_inv, rows_imply_map, both_or_neither in *.
  simpl in *. rewrite Hd in *. split.
  - intros _. apply Hr, populated_Some.
  - intros Hq. split; intros _; [apply Hr |]; apply populated_Some.
Qed.

(** X14: [__len__], [__getitem__] and [__setitem__] keep what holds of
    the cached pair, whether they return or raise: rows never without the
    column map, and both or neither on a source that is not
    query-backed.  An assignment that returns leaves both populated, and
    the column map as the materialization left it: a column added by
    assignment gets no entry. *)
Theorem delegation_keeps_pair s key value :
  lazy_pair_inv s ->
  lazy_pair_inv (__len__ s).2 /\
  lazy_pair_inv (__getitem__ key s).2 /\
  lazy_pair_inv (__setitem__ key value s).2 /\
  ((__setitem__ key value s).1 = Ok tt ->
   populated (_internal_df (__setitem__ key value s).2) /\
   populated (_internal_col_map (__setitem__ key value s).2) /\
   _internal_col_map (__setitem__ key value s).2
   = _internal_col_map (df s).2).
Proof.
  intros Hinv.
  pose proof (df_preserves _setup lazy_pair_inv lazy_pair_inv_stable s Hinv)
    as Hdf.
  unfold __len__, __getitem__, __setitem__, bind.
  destruct (df s) as [[d|e] s1] eqn:Hrun; simpl in *.
  - apply df_result in Hrun. unfold lift.
    split_and!; try exact Hdf.
    + destruct (pd_setitem d key value) as [d'|e]; simpl; [| exact Hdf].
      now apply (lazy_pair_inv_setitem s1 d).
    + destruct (pd_setitem d key value) as [d'|e]; simpl; [| discriminate].
      intros _. split_and!; [apply populated_Some | | reflexivity].
      destruct Hdf as [Hrows _]. apply Hrows.
      rewrite Hrun. apply populated_Some.
  - split_and!; try exact Hdf. discriminate.
Qed.

End Delegation.

(** The rows of [plain_source], read through the delegation. *)
Lemma getitem_materializes_witness :
  _internal_df loaded_source = Some Demo.table /\
  ("b" ∈ columns Demo.table ->
   exists col,
     __getitem__ (Demo._setup Demo.table) "b" plain_source
       = (Ok col, loaded_source) /\
     __len__ (Demo._setup Demo.table) plain_source
       = (Ok (length col), loaded_source)) /\
  ("b" ∉ columns Demo.table ->
   __getitem__ (Demo._setup Demo.table) "b" plain_source
     = (Raise (KeyError "b"), loaded_source)).
Proof.
  apply (getitem_materializes (Demo._setup Demo.table) plain_source
           Demo.table loaded_source "b").
  reflexivity.
Defined.

Lemma delegation_keeps_pair_witness :
  let setitem := __setitem__ (Demo._setup Demo.table)
                   (fun d _ _ => Ok d) "c" (ItemScalar (SInt 0)) in
  lazy_pair_inv (__len__ (Demo._setup Demo.table) plain_source).2 /\
  lazy_pair_inv (__getitem__ (Demo._setup Demo.table) "c" plain_source).2 /\
  lazy_pair_inv (setitem plain_source).2 /\
  ((setitem plain_source).1 = Ok tt ->
   populated (_internal_df (setitem plain_source).2) /\
   populated (_internal_col_map (setitem plain_source).2) /\
   _internal_col_map (setitem plain_source).2
   = _internal_col_map (df (Demo._setup Demo.table) plain_source).2).
Proof.
  apply (delegation_keeps_pair (Demo._setup Demo.table) (fun d _ _ => Ok d)
           plain_source "c" (ItemScalar (SInt 0))).
  unfold lazy_pair_inv, rows_imply_map, both_or_neither, populated. simpl.
  tauto.
Defined.

(** ** The two paths of [filter] *)

Section FilterPaths.

Context {pd : Pandas}.
Variable parse : string -> res (gmap string json).
Variable format : gmap string json -> res string.
Variable binary_ops : gmap string string.
Variable _setup : option string -> res (DataFrame * gmap string string).

Abbreviation pushdown := (pushdown parse format binary_ops _setup).
Abbreviation filter := (filter parse format binary_ops _setup).

(** X15: a [filter] the backend serves does not materialize anything:
    when the body of the [try] returns, [filter] returns its result and
    the object differs at most by logged warnings.  When the body raises,
    whatever the exception, a [filter] that returns has materialized the
    rows. *)
Theorem filter_paths w l g s :
  match (pushdown w l g s).1 with
  | Ok _ =>
      filter w l g s = pushdown w l g s /\
      same_but_log s (filter w l g s).2
  | Raise _ =>
      forall r s', filter w l g s = (Ok r, s') ->
                   populated (_internal_df s')
  end.
Proof.
  pose proof (pushdown_logs parse format binary_ops _setup s w l g s
                (same_but_log_refl s)) as Hlog.
  unfold filter, try_except.
  destruct (pushdown w l g s) as [[r0|e] s1]; simpl in *.
  - split; [reflexivity | exact Hlog].
  - intros r s' Hrun. unfold fallback in Hrun.
    apply bind_inv_ok in Hrun as (d & s2 & Hdf & Hrun).
    apply bind_inv_ok in Hrun as (d1 & s3 & Hfold & Hrun).
    apply df_result in Hdf.
    assert (s3 = s2) by (unfold lift in Hfold; now inversion Hfold). subst s3.
    assert (s' = s2)
      by (destruct (truthy_limit l); unfold ret in Hrun; now inversion Hrun).
    subst s'. rewrite Hdf. apply populated_Some.
Qed.

End FilterPaths.

(** ** The probe that falls back *)

(** X16: on a query-backed source with nothing cached whose probe cannot
    be pushed down, the first read of the column map materializes the
    rows and then unpacks the table the fallback returned.  With exactly
    two columns the second label is stored as the column map; with any
    other number the read raises [UnpackError], and the next read returns
    the column map that came with the rows. *)
Theorem probe_fallback_unpacks {pd : Pandas}
    parse format binary_ops _setup s e d m :
  is_sql s = true ->
  _internal_df s = None ->
  _internal_col_map s = None ->
  (pushdown parse format binary_ops _setup (Some []) (Some 1) true s).1
    = Raise e ->
  _setup None = Ok (d, m) ->
  let r := _col_map parse format binary_ops _setup s in
  _internal_df r.2 = Some d /\
  match columns d with
  | [_; b] => r.1 = Ok (Some (ColLabel b))
  | _ =>
      r.1 = Raise UnpackError /\
      _col_map parse format binary_ops _setup r.2
      = (Ok (Some (ColMap m)), r.2)
  end.
Proof.
  intros Hsql Hdf Hcm Hpush Hsetup r. subst r.
  pose proof (pushdown_logs parse format binary_ops _setup s
                (Some []) (Some 1) true s (same_but_log_refl s)) as Hlog.
  destruct (pushdown parse format binary_ops _setup (Some []) (Some 1) true s)
    as [[r0|e0] s1] eqn:Hp; simpl in Hpush, Hlog; [discriminate |].
  destruct Hlog as (_ & Hdf1 & _). rewrite Hdf in Hdf1.
  set (s2 := set_internal_col_map (Some (ColMap m))
               (set_internal_df (Some d) s1)).
  assert (Hrun : _col_map parse format binary_ops _setup s =
                 match columns d with
                 | [_; b] => (Ok (Some (ColLabel b)),
                              set_internal_col_map (Some (ColLabel b)) s2)
                 | _ => (Raise UnpackError, s2)
                 end).
  { unfold _col_map. unfold bind at 1, get at 1. rewrite Hcm, Hsql.
    unfold bind at 1. unfold bind at 1. unfold filter, try_except.
    rewrite Hp. unfold fallback, df. unfold bind at 1. unfold bind at 1, get at 1.
    rewrite Hdf1. unfold bind, lift, modify, ret, get. rewrite Hsetup. simpl.
    unfold unpack_col_map, DF.head. simpl. fold s2.
    destruct (columns d) as [|a [|b [|c cols]]]; reflexivity. }
  rewrite Hrun.
  destruct (columns d) as [|a [|b [|c cols]]]; simpl;
    (split; [reflexivity |]); try reflexivity;
    (split; [reflexivity | now apply _col_map_cached]).
Qed.

(** The demo backend with a parser that rejects the query, over the
    table of two columns. *)
Lemma probe_fallback_unpacks_witness :
  let r := _col_map (pd := Demo.pandas) Demo.parse_fails Demo.format
                    Demo.binary_ops (Demo._setup Demo.table) sql_source in
  _internal_df r.2 = Some Demo.table /\
  match columns Demo.table with
  | [_; b] => r.1 = Ok (Some (ColLabel b))
  | _ =>
      r.1 = Raise UnpackError /\
      _col_map (pd := Demo.pandas) Demo.parse_fails Demo.format
               Demo.binary_ops (Demo._setup Demo.table) r.2
      = (Ok (Some (ColMap (_make_col_map Demo.table).2)), r.2)
  end.
Proof.
  apply (probe_fallback_unpacks (pd := Demo.pandas) Demo.parse_fails
           Demo.format Demo.binary_ops (Demo._setup Demo.table) sql_source
           (ExternalError "ParseException") Demo.table
           (_make_col_map Demo.table).2);
    reflexivity.
Defined.

(** ** The translated query in full *)

(** X17: the body of the [try] returns exactly when the source is
    query-backed, its query parses, every predicate has a clause, [len]
    takes the [where] of the parsed query when there is a predicate, and
    the serializer and the adapter accept what they are given.  What the
    serializer is given is the parsed query with no key changed but
    [where] and [limit]: the limit if there is one, and as [where] the
    clauses [{operatorKey: [column, value]}] of the predicates taken in
    order, each joined as [{"and": [new, accumulated]}] in front of the
    where-clause there was before it, or standing alone when there was
    none.  What is returned is the adapter's answer to the serialized
    text with its double quotes made single: the pair when the column map
    is asked for, else the table. *)
Theorem pushdown_query_closed
    (parse : string -> res (gmap string json))
    (format : gmap string json -> res string)
    (binary_ops : gmap string string)
    (_setup : option string -> res (DataFrame * gmap string string))
    w limit g s r :
  (exists s', pushdown parse format binary_ops _setup w limit g s = (Ok r, s'))
  <->
  (is_sql s = true /\
   exists q pq0 cs text d m,
     query s = Some q /\ parse q = Ok pq0 /\
     (default [] w <> [] -> has_len (pq0 !! "where") = true) /\
     Forall2 (fun c j => clause_json binary_ops c = Ok j) (default [] w) cs /\
     format (with_limit limit
               (with_where (nest_where (pq0 !! "where") cs) pq0)) = Ok text /\
     _setup (Some (PyStr.replace PyStr.dquote PyStr.squote text))
       = Ok (d, m) /\
     r = if g then RowsAndMap d m else Rows d).
Proof. apply pushdown_returns. Qed.

(** One predicate, [("b", "LIKE", "bo")], on the demo source, whose
    query has no [where]: the loop leaves the bare clause
    [{"like": ["b", "%bo%"]}], with no [and]. *)
Lemma pushdown_query_closed_witness :
  (py_fold (where_step Demo.binary_ops) [("b", "LIKE", SStr "bo")]
           (∅ : gmap string json) sql_source).1
  = Ok (<["where" := JDict [("like", JList [JStr "b"; JStr "%bo%"])]]> ∅) /\
  nest_where None [JDict [("like", JList [JStr "b"; JStr "%bo%"])]]
  = Some (JDict [("like", JList [JStr "b"; JStr "%bo%"])]) /\
  is_sql sql_source = true /\
  exists q pq0 cs text d m,
    query sql_source = Some q /\ Demo.parse q = Ok pq0 /\
    (default [] (Some [("b", "LIKE", SStr "bo")]) <> [] ->
     has_len (pq0 !! "where") = true) /\
    Forall2 (fun c j => clause_json Demo.binary_ops c = Ok j)
            (default [] (Some [("b", "LIKE", SStr "bo")])) cs /\
    Demo.format
      (with_limit None (with_where (nest_where (pq0 !! "where") cs) pq0))
    = Ok text /\
    Demo._setup Demo.table
      (Some (PyStr.replace PyStr.dquote PyStr.squote text)) = Ok (d, m) /\
    Rows Demo.table = if false then RowsAndMap d m else Rows d.
Proof.
  split; [vm_compute; reflexivity |]. split; [reflexivity |].
  apply (pushdown_query_closed Demo.parse Demo.format Demo.binary_ops
           (Demo._setup Demo.table) (Some [("b", "LIKE", SStr "bo")])
           None false sql_source (Rows Demo.table)).
  eexists. vm_compute. reflexivity.
Defined.

(** ** The order of the rows *)

Lemma select_sublist {A} (l : list A) : forall mask,
  DF.select l mask `sublist_of` l.
Proof.
  induction l as [|x l IH]; intros [|b mask]; simpl;
    try apply sublist_nil_l.
  destruct b; [apply sublist_skip | apply sublist_cons]; apply IH.
Qed.

Lemma cut_from_refl d : cut_from d d.
Proof. split; reflexivity. Qed.

Lemma cut_from_trans d1 d2 d3 :
  cut_from d1 d2 -> cut_from d2 d3 -> cut_from d1 d3.
Proof.
  intros [Hc1 Hr1] [Hc2 Hr2]. split; [congruence |].
  etrans; [exact Hr2 | exact Hr1].
Qed.

Lemma getmask_cut d mask d' : DF.getmask d mask = Ok d' -> cut_from d d'.
Proof.
  unfold DF.getmask. destruct (_ =? _)%nat; [| discriminate].
  intros [= <-]. split; [reflexivity | apply select_sublist].
Qed.

Lemma head_cut l d : cut_from d (DF.head l d).
Proof.
  unfold DF.head. destruct (0 <=? l); split; try reflexivity; simpl;
    apply sublist_take.
Qed.

Section RowOrder.

Context {pd : Pandas}.
Variable parse : string -> res (gmap string json).
Variable format : gmap string json -> res string.
Variable binary_ops : gmap string string.
Variable _setup : option string -> res (DataFrame * gmap string string).

Lemma comparison_cut (c : bool) (body : res DataFrame) d d' :
  (forall d', body = Ok d' -> cut_from d d') ->
  (if c then body else Ok d) = Ok d' -> cut_from d d'.
Proof.
  intros Hbody. destruct c; [apply Hbody |].
  intros [= <-]. apply cut_from_refl.
Qed.

Lemma filter_df_cut c d d' : _filter_df c d = Ok d' -> cut_from d d'.
Proof.
  destruct c as [[col op] val]. unfold _filter_df. intros Hf.
  apply res_bind_inv_ok in Hf as (s & _ & Hf).
  apply res_bind_inv_ok in Hf as (d0 & H0 & Hf).
  apply res_bind_inv_ok in Hf as (d1 & H1 & Hf).
  apply res_bind_inv_ok in Hf as (d2 & H2 & Hf).
  apply res_bind_inv_ok in Hf as (d3 & H3 & Hf).
  apply res_bind_inv_ok in Hf as (d4 & H4 & Hf).
  apply res_bind_inv_ok in Hf as (d5 & H5 & Hf).
  injection Hf as <-. apply getmask_cut in H0.
  assert (Hone : forall d d' (op : Series -> res (list bool)),
            (s ← DF.getitem d col; m ← op s; DF.getmask d m) = Ok d' ->
            cut_from d d').
  { intros e e' f Hb.
    apply res_bind_inv_ok in Hb as (s0 & _ & Hb).
    apply res_bind_inv_ok in Hb as (m0 & _ & Hb).
    eapply getmask_cut, Hb. }
  assert (Htwo : forall d d' (op1 op2 : Series -> res (list bool)) comb,
            (s1 ← DF.getitem d col; m1 ← op1 s1;
             s2 ← DF.getitem d col; m2 ← op2 s2;
             DF.getmask d (comb m1 m2)) = Ok d' ->
            cut_from d d').
  { intros e e' f1 f2 comb Hb.
    apply res_bind_inv_ok in Hb as (s1 & _ & Hb).
    apply res_bind_inv_ok in Hb as (m1 & _ & Hb).
    apply res_bind_inv_ok in Hb as (s2 & _ & Hb).
    apply res_bind_inv_ok in Hb as (m2 & _ & Hb).
    eapply getmask_cut, Hb. }
  apply comparison_cut in H1;
    [| intros ?; apply (Hone _ _ (fun s => to_numeric_gt s val))].
  apply comparison_cut in H2;
    [| intros ?; apply (Hone _ _ (fun s => to_numeric_lt s val))].
  apply comparison_cut in H3;
    [| intros ?; apply (Hone _ _ (fun s => str_contains s _))].
  apply comparison_cut in H4;
    [| intros ?; apply (Htwo _ _ (fun s => series_eq s val)
                          (fun s => series_eq s _) DF.mask_or)].
  apply comparison_cut in H5;
    [| intros ?; apply (Htwo _ _ (fun s => series_ne s val)
                          (fun s => series_ne s _) DF.mask_and)].
  exact (cut_from_trans _ _ _ H0
           (cut_from_trans _ _ _ H1
              (cut_from_trans _ _ _ H2
                 (cut_from_trans _ _ _ H3 (cut_from_trans _ _ _ H4 H5))))).
Qed.

Lemma fold_filter_df_cut w : forall d d',
  res_fold (fun df cond => _filter_df cond df) w d = Ok d' -> cut_from d d'.
Proof.
  induction w as [|c w IH]; intros d d' Hfold; simpl in Hfold.
  - injection Hfold as <-. apply cut_from_refl.
  - apply res_bind_inv_ok in Hfold as (d1 & Hstep & Hfold).
    eapply cut_from_trans; [eapply filter_df_cut, Hstep | eapply IH, Hfold].
Qed.

(** X18: on a source that is not query-backed, the rows [filter] returns
    are a subsequence of the rows of the cached table: they come in the
    order of the table, and none comes more often than the table has
    it. *)
Theorem filter_plain_order s w l g r s' :
  is_sql s = false ->
  filter parse format binary_ops _setup w l g s = (Ok r, s') ->
  exists d, _internal_df s' = Some d /\ cut_from d (result_rows r).
Proof.
  intros Hsql Hrun. rewrite filter_not_sql in Hrun by exact Hsql.
  unfold fallback in Hrun.
  apply bind_inv_ok in Hrun as (d & s1 & Hdf & Hrun).
  apply bind_inv_ok in Hrun as (d1 & s2 & Hfold & Hrun).
  unfold lift in Hfold.
  assert (Hs : s2 = s1) by (now inversion Hfold). subst s2.
  assert (Hf : res_fold (fun df cond => _filter_df cond df) (default [] w) d
               = Ok d1) by (now inversion Hfold).
  apply df_result in Hdf. apply fold_filter_df_cut in Hf.
  exists d.
  destruct (truthy_limit l); unfold ret in Hrun; injection Hrun as <- <-;
    (split; [exact Hdf |]); simpl; [| exact Hf].
  eapply cut_from_trans; [exact Hf | apply head_cut].
Qed.

End RowOrder.

Lemma filter_plain_order_witness :
  exists d,
    _internal_df loaded_source = Some d /\
    cut_from d (result_rows
                  (Rows (mkDF ["a"; "b"]
                           [[SInt 1; SStr "bob"]; [SStr "1"; SStr "bobby"]]))).
Proof.
  apply (filter_plain_order (pd := Demo.pandas) Demo.parse Demo.format
           Demo.binary_ops (Demo._setup Demo.table) plain_source
           (Some [("b", "like", SStr "%bob%")]) None false).
  - reflexivity.
  - vm_compute. reflexivity.
Defined.

(** ** Declaring twice *)

Section DeclareTwice.

Context {pd : Pandas}.
Variable parse : string -> res (gmap string json).
Variable format : gmap string json -> res string.
Variable binary_ops : gmap string string.
Variable DATA_TYPES_SUBTYPES : list (string * list string).
Variable _setup : option string -> res (DataFrame * gmap string string).

Abbreviation set_subtype :=
  (set_subtype parse format binary_ops DATA_TYPES_SUBTYPES _setup).
Abbreviation set_subtypes :=
  (set_subtypes parse format binary_ops DATA_TYPES_SUBTYPES _setup).
Abbreviation type_of_subtype := (type_of_subtype DATA_TYPES_SUBTYPES).
Abbreviation reads_col_map := (reads_col_map parse format binary_ops _setup).
Abbreviation offending := (offending DATA_TYPES_SUBTYPES).
Abbreviation declare := (declare DATA_TYPES_SUBTYPES).

(** The column map reads the same after the call, however it ends. *)
Lemma set_subtypes_reads cm m : forall s,
  reads_col_map s cm -> reads_col_map (set_subtypes m s).2 cm.
Proof.
  induction m as [|[col subtype] m IH]; intros s Hread; [exact Hread |].
  destruct (set_subtype_run parse format binary_ops DATA_TYPES_SUBTYPES _setup
              s cm col subtype Hread) as (s1 & Hcm & _ & Hstep).
  unfold set_subtypes in *. rewrite py_for_cons, Hstep.
  destruct (present col cm).
  - destruct (type_of_subtype subtype).
    + apply IH. now apply reads_cached.
    + simpl. now apply reads_cached.
  - apply IH. now apply reads_cached.
Qed.

(** Pairs that are recorded already change nothing. *)
Lemma declare_again cm m : forall d,
  (forall k v type_, (k, v) ∈ m -> present k cm = true ->
     type_of_subtype v = Some type_ ->
     d.1 !! k = Some type_ /\ d.2 !! k = Some v) ->
  foldl (declare cm) d m = d.
Proof.
  induction m as [|[k v] m IH]; intros d Hrec; simpl; [reflexivity |].
  assert (Hstep : declare cm d (k, v) = d).
  { unfold declare. simpl. destruct (present k cm) eqn:Hp; [| reflexivity].
    destruct (type_of_subtype v) as [ty|] eqn:Hty; [| reflexivity].
    destruct (Hrec k v ty (list_elem_of_here _ _) Hp Hty) as [H1 H2].
    rewrite (insert_id _ _ _ H1), (insert_id _ _ _ H2). now destruct d. }
  rewrite Hstep. apply IH. intros k' v' ty' Hin. apply Hrec. now right.
Qed.

(** X19: declaring the same mapping a second time is harmless: after a
    call of [set_subtypes] that returned, the same call returns again and
    leaves the declared types and subtypes as the first call left
    them. *)
Theorem set_subtypes_twice s cm m :
  reads_col_map s cm ->
  NoDup m.*1 ->
  Forall (fun p => offending cm p = false) m ->
  let s1 := (set_subtypes m s).2 in
  (set_subtypes m s).1 = Ok tt /\
  (set_subtypes m s1).1 = Ok tt /\
  declared (set_subtypes m s1).2 = declared s1.
Proof.
  intros Hread Hnd Hclean s1.
  destruct (set_subtypes_run parse format binary_ops DATA_TYPES_SUBTYPES _setup
              cm m s Hread) as [Hres Hdecl].
  pose proof (set_subtypes_reads cm m s Hread) as Hread1. fold s1 in Hread1.
  destruct (set_subtypes_run parse format binary_ops DATA_TYPES_SUBTYPES _setup
              cm m s1 Hread1) as [Hres1 Hdecl1].
  destruct (find_clean _ _ Hclean) as [Hnone Hsame].
  rewrite Hnone in Hres, Hres1. rewrite Hsame in Hdecl, Hdecl1.
  fold s1 in Hdecl. split_and!; [exact Hres | exact Hres1 |].
  rewrite Hdecl1. apply declare_again.
  intros k v ty Hin Hp Hty.
  destruct (declare_recorded DATA_TYPES_SUBTYPES cm m (declared s) k v
              Hnd Hclean Hin Hp) as [Hsub Htyp].
  rewrite <- Hdecl in Hsub, Htyp. rewrite Hty in Htyp. split; assumption.
Qed.

End DeclareTwice.

Lemma set_subtypes_twice_witness :
  let m := [("a", "Int"); ("x", "Date")] in
  let call :=
    set_subtypes (pd := Demo.pandas) Demo.parse Demo.format Demo.binary_ops
                 Demo.DATA_TYPES_SUBTYPES (Demo._setup Demo.table) m in
  (call plain_source).1 = Ok tt /\
  (call (call plain_source).2).1 = Ok tt /\
  declared (call (call plain_source).2).2 = declared (call plain_source).2.
Proof.
  apply (set_subtypes_twice (pd := Demo.pandas) Demo.parse Demo.format
           Demo.binary_ops Demo.DATA_TYPES_SUBTYPES (Demo._setup Demo.table)
           plain_source demo_col_map [("a", "Int"); ("x", "Date")]).
  - vm_compute. reflexivity.
  - compute_done.
  - repeat constructor.
Defined.
